(** * nrLUT_3D_GRAPPA: the GRAPPA-style 3D sampling pattern and its LUT export

    A shallow embedding of [functions/trajectories/nrLUT_3D_GRAPPA.py]
    and the properties of its pattern generator ([grappa3D_pattern]),
    of the 32-bit splitter ([split32to16]) and of the module-level
    summary and LUT export.

    Modelling choices.
    - Python [int] is [Z].  [%] and [//] are floor operations: they are
      [Z.modulo] and [Z.div], with [ZeroDivisionError] written out.
    - The only floats of the generator are [(dim + 1) / 2], [acs / 2] and
      their sums and differences: multiples of one half.  They are kept
      exactly, as twice their value ([half]); binary64 is exact on them
      below 2^52.  [round] is Python 3's round-half-to-even.
    - A NumPy 2-D bool array is a list of rows.  Basic slices clip and
      wrap negative bounds as NumPy does; integer indices wrap negative
      values and raise [IndexError] out of range.
    - Exceptions are the [Raise] outcomes of a small error monad. *)

From Stdlib Require Import ZArith Lia Ascii String DecimalString QArith.
From Stdlib Require Import DecimalPos DecimalZ.
From stdpp Require Import base option list list_numbers sorting strings.

Local Open Scope Z_scope.

(** ** Python outcomes *)

Inductive exn : Set := ValueError | ZeroDivisionError | IndexError | TypeError.

Inductive result (A : Type) : Type :=
  | Ok (a : A)
  | Raise (e : exn).
Arguments Ok {A} a.
Arguments Raise {A} e.

Global Instance result_ret : MRet result := fun A a => Ok a.
Global Instance result_bind : MBind result := fun A B f r =>
  match r with
  | Ok a => f a
  | Raise e => Raise e
  end.

Definition succeeds {A} (r : result A) : Prop := exists a, r = Ok a.
Definition fails {A} (r : result A) : Prop := exists e, r = Raise e.

(** [for x in xs: s = body(x, s)], stopping at the first exception. *)
Fixpoint for_each {S : Type} (xs : list Z) (body : Z -> S -> result S) (s : S)
  : result S :=
  match xs with
  | [] => Ok s
  | x :: xs' => s' ← body x s; for_each xs' body s'
  end.

(** [range(a, b)] *)
Definition range (a b : Z) : list Z := seqZ a (b - a).

(** [a % b] *)
Definition py_mod (a b : Z) : result Z :=
  if b =? 0 then Raise ZeroDivisionError else Ok (a mod b).

(** [a / b] on two Python integers (true division): [ZeroDivisionError] on
    a zero divisor; the binary64 quotient is kept as the exact rational it
    rounds. *)
Definition py_truediv (a b : Z) : result Q :=
  if b =? 0 then Raise ZeroDivisionError else Ok (inject_Z a / inject_Z b)%Q.

(** What [np.count_nonzero] returns: a Python [int] before NumPy 2.3, a
    NumPy integer scalar from NumPy 2.3 on. *)
Inductive count_type : Set := PythonInt | NumpyInt.

(** A binary64 quotient of two integers: finite (kept as the exact rational
    it rounds), infinite, or not a number. *)
Inductive quotient : Type :=
  | Finite (q : Q)
  | PosInf
  | NegInf
  | NaN.

(** [a / b] where [b] is a NumPy integer scalar: a zero divisor gives
    [inf], [-inf] or [nan] (and a warning), never an exception. *)
Definition np_truediv (a b : Z) : quotient :=
  if b =? 0 then
    if a =? 0 then NaN else if 0 <? a then PosInf else NegInf
  else Finite (inject_Z a / inject_Z b)%Q.

(** [size / count] for the count that [np.count_nonzero] returned. *)
Definition size_over_count (t : count_type) (size count : Z) : result quotient :=
  match t with
  | PythonInt => q ← py_truediv size count; Ok (Finite q)
  | NumpyInt => Ok (np_truediv size count)
  end.

(** ** Floats that are multiples of one half *)

Record half : Set := Half { twice : Z }.

(** [n / 2] for an integer [n], and the sums and differences of such
    halves.  The code computes them in binary64: they are these exact halves
    as long as twice their value stays below 2^53 in absolute value, which
    holds for grid and ACS sizes up to 2^51 ([float_exact] below); beyond
    that range the code rounds, and from 2^1024 on [n / 2] raises
    [OverflowError].  Statements that depend on the values of the ACS bounds
    outside valid input carry [float_exact] as a hypothesis. *)
Definition truediv2 (n : Z) : half := Half n.
Definition half_of_int (n : Z) : half := Half (2 * n).
Definition hadd (x y : half) : half := Half (twice x + twice y).
Definition hsub (x y : half) : half := Half (twice x - twice y).

(** Python 3 [round(x)]: to the nearest integer, ties to the even one. *)
Definition round (x : half) : Z :=
  let q := twice x / 2 in
  if Z.even (twice x) then q
  else if Z.even q then q else q + 1.

(** ** NumPy arrays of booleans *)

Abbreviation ndarray := (list (list bool)).

(** [np.zeros((d0, d1), dtype=bool)] *)
Definition zeros (d0 d1 : Z) : result ndarray :=
  if (d0 <? 0) || (d1 <? 0) then Raise ValueError
  else Ok (replicate (Z.to_nat d0) (replicate (Z.to_nat d1) false)).

(** A slice bound against an axis of length [len] (step 1). *)
Definition slice_adjust (i len : Z) : Z :=
  if i <? 0 then Z.max (i + len) 0 else Z.min i len.

Definition in_slice (a b len : Z) (i : nat) : bool :=
  (slice_adjust a len <=? Z.of_nat i) && (Z.of_nat i <? slice_adjust b len).

(** [row[c:d] = v] *)
Definition fill_row (c d : Z) (v : bool) (row : list bool) : list bool :=
  imap (fun j b => if in_slice c d (Z.of_nat (length row)) j then v else b) row.

(** [m[a:b, c:d] = v] *)
Definition setslice (m : ndarray) (a b c d : Z) (v : bool) : ndarray :=
  imap (fun i row =>
          if in_slice a b (Z.of_nat (length m)) i then fill_row c d v row
          else row) m.

(** An integer index against an axis of length [len]. *)
Definition index_adjust (i len : Z) : result nat :=
  if (i <? - len) || (len <=? i) then Raise IndexError
  else Ok (Z.to_nat (if i <? 0 then i + len else i)).

Definition item {A} (l : list A) (i : nat) : result A :=
  match l !! i with
  | Some x => Ok x
  | None => Raise IndexError
  end.

(** [m[i, j]] *)
Definition getitem (m : ndarray) (i j : Z) : result bool :=
  i' ← index_adjust i (Z.of_nat (length m));
  row ← item m i';
  j' ← index_adjust j (Z.of_nat (length row));
  item row j'.

(** [m[i, j] = v] *)
Definition setitem (m : ndarray) (i j : Z) (v : bool) : result ndarray :=
  i' ← index_adjust i (Z.of_nat (length m));
  row ← item m i';
  j' ← index_adjust j (Z.of_nat (length row));
  Ok (<[i' := <[j' := v]> row]> m).

(** [m.size] and [np.count_nonzero(m)] *)
Definition count_true (row : list bool) : nat :=
  length (filter (fun b => b = true) row).
Definition size (m : ndarray) : Z := Z.of_nat (sum_list_with length m).
Definition count_nonzero (m : ndarray) : Z :=
  Z.of_nat (sum_list_with count_true m).

(** ** The pattern generator *)

(** [round(c - acs / 2)] and [round(c + acs / 2 - 1)] with
    [c = (dim + 1) / 2]: the 1-based inclusive ACS bounds along one axis. *)
Definition acs_lo (dim acs : Z) : Z :=
  let c := truediv2 (dim + 1) in
  round (hsub c (truediv2 acs)).
Definition acs_hi (dim acs : Z) : Z :=
  let c := truediv2 (dim + 1) in
  round (hsub (hadd c (truediv2 acs)) (half_of_int 1)).

(** The body of the undersampling loop at the 1-based cell [(ky, kz)]. *)
Definition lattice_step (Ry Rz y1 y2 z1 z2 : Z) (kz ky : Z) (mask : ndarray)
  : result ndarray :=
  if (z1 <=? kz) && (kz <=? z2) && ((y1 <=? ky) && (ky <=? y2)) then Ok mask
  else
    ry ← py_mod (ky - y1) Ry;
    if ry =? 0 then
      rz ← py_mod (kz - z1) Rz;
      if rz =? 0 then setitem mask (ky - 1) (kz - 1) true else Ok mask
    else Ok mask.

(** The body of the extraction loop at the 0-based index [(ky, kz)]. *)
Definition extract_step (ky_dim kz_dim : Z) (mask : ndarray) (ky kz : Z)
    (samples : list (Z * Z)) : result (list (Z * Z)) :=
  b ← getitem mask ky kz;
  if b : bool then Ok (samples ++ [(ky - ky_dim / 2, kz - kz_dim / 2)])
  else Ok samples.

Definition grappa3D_pattern (size_of_kspace : Z * Z) (Ry Rz : Z) (ACSdim : Z * Z)
  : result (ndarray * list (Z * Z)) :=
  let '(ky_dim, kz_dim) := size_of_kspace in
  mask ← zeros ky_dim kz_dim;
  let y1 := acs_lo ky_dim ACSdim.1 in
  let y2 := acs_hi ky_dim ACSdim.1 in
  let z1 := acs_lo kz_dim ACSdim.2 in
  let z2 := acs_hi kz_dim ACSdim.2 in
  (* fill ACS region *)
  let mask := setslice mask (y1 - 1) y2 (z1 - 1) z2 true in
  (* uniform undersampling outside ACS *)
  mask ← for_each (range 1 (kz_dim + 1)) (fun kz =>
            for_each (range 1 (ky_dim + 1)) (lattice_step Ry Rz y1 y2 z1 z2 kz))
          mask;
  (* extract ky-kz coordinates *)
  samples ← for_each (range 0 ky_dim) (fun ky =>
               for_each (range 0 kz_dim) (extract_step ky_dim kz_dim mask ky))
             [];
  Ok (mask, samples).

(** ** The generator on the store of Python objects

    The generator is called with two lists, which Python passes by
    reference, and it updates a mask and a list of samples in place.  Here
    it is again with the store written out: arguments and results are
    addresses, every read and every write of the body is a read or a write
    of the store, one for one. *)

Definition loc : Set := nat.

Inductive object : Type :=
  | IntList (xs : list Z)
  | BoolArray (m : ndarray)
  | PairList (ps : list (Z * Z))
  | IntArray (ps : list (Z * Z)).

(** The object at address [l] is [store !! l]; a new object takes the next
    address. *)
Abbreviation store := (list object).

Definition alloc (o : object) (σ : store) : loc * store :=
  (length σ, σ ++ [o]).

(** The object a name refers to, as a list of integers, a bool array or a
    list of pairs; [TypeError] when it is something else. *)
Definition load_ints (σ : store) (l : loc) : result (list Z) :=
  match σ !! l with
  | Some (IntList xs) => Ok xs
  | _ => Raise TypeError
  end.

Definition load_array (σ : store) (l : loc) : result ndarray :=
  match σ !! l with
  | Some (BoolArray m) => Ok m
  | _ => Raise TypeError
  end.

Definition load_pairs (σ : store) (l : loc) : result (list (Z * Z)) :=
  match σ !! l with
  | Some (PairList ps) => Ok ps
  | _ => Raise TypeError
  end.

(** [a, b = xs] *)
Definition unpack2 (σ : store) (l : loc) : result (Z * Z) :=
  xs ← load_ints σ l;
  match xs with
  | [a; b] => Ok (a, b)
  | _ => Raise ValueError
  end.

(** [xs[i]] on a list *)
Definition list_getitem (σ : store) (l : loc) (i : Z) : result Z :=
  xs ← load_ints σ l;
  i' ← index_adjust i (Z.of_nat (length xs));
  item xs i'.

(** [np.zeros((d0, d1), dtype=bool)]: a new array *)
Definition np_zeros (d0 d1 : Z) (σ : store) : result (loc * store) :=
  m ← zeros d0 d1;
  Ok (alloc (BoolArray m) σ).

(** [mask[a:b, c:d] = v], [mask[i, j] = v] and [mask[i, j]] *)
Definition store_setslice (mask : loc) (a b c d : Z) (v : bool) (σ : store)
  : result store :=
  m ← load_array σ mask;
  Ok (<[mask := BoolArray (setslice m a b c d v)]> σ).

Definition store_setitem (mask : loc) (i j : Z) (v : bool) (σ : store)
  : result store :=
  m ← load_array σ mask;
  m' ← setitem m i j v;
  Ok (<[mask := BoolArray m']> σ).

Definition store_getitem (mask : loc) (i j : Z) (σ : store) : result bool :=
  m ← load_array σ mask;
  getitem m i j.

(** [samples.append([a, b])] *)
Definition store_append (samples : loc) (p : Z * Z) (σ : store) : result store :=
  ps ← load_pairs σ samples;
  Ok (<[samples := PairList (ps ++ [p])]> σ).

(** [np.array(samples)]: a new array *)
Definition np_array (samples : loc) (σ : store) : result (loc * store) :=
  ps ← load_pairs σ samples;
  Ok (alloc (IntArray ps) σ).

Definition lattice_step_store (Ry Rz y1 y2 z1 z2 : Z) (mask : loc) (kz ky : Z)
    (σ : store) : result store :=
  if (z1 <=? kz) && (kz <=? z2) && ((y1 <=? ky) && (ky <=? y2)) then Ok σ
  else
    ry ← py_mod (ky - y1) Ry;
    if ry =? 0 then
      rz ← py_mod (kz - z1) Rz;
      if rz =? 0 then store_setitem mask (ky - 1) (kz - 1) true σ else Ok σ
    else Ok σ.

Definition extract_step_store (ky_dim kz_dim : Z) (mask samples : loc)
    (ky kz : Z) (σ : store) : result store :=
  b ← store_getitem mask ky kz σ;
  if b : bool
  then store_append samples (ky - ky_dim / 2, kz - kz_dim / 2) σ
  else Ok σ.

Definition grappa3D_pattern_store (size_of_kspace : loc) (Ry Rz : Z)
    (ACSdim : loc) (σ : store) : result ((loc * loc) * store) :=
  '(ky_dim, kz_dim) ← unpack2 σ size_of_kspace;
  '(mask, σ) ← np_zeros ky_dim kz_dim σ;
  acs ← list_getitem σ ACSdim 0;
  let y1 := acs_lo ky_dim acs in
  acs ← list_getitem σ ACSdim 0;
  let y2 := acs_hi ky_dim acs in
  acs ← list_getitem σ ACSdim 1;
  let z1 := acs_lo kz_dim acs in
  acs ← list_getitem σ ACSdim 1;
  let z2 := acs_hi kz_dim acs in
  (* fill ACS region *)
  σ ← store_setslice mask (y1 - 1) y2 (z1 - 1) z2 true σ;
  (* uniform undersampling outside ACS *)
  σ ← for_each (range 1 (kz_dim + 1)) (fun kz =>
         for_each (range 1 (ky_dim + 1))
                  (lattice_step_store Ry Rz y1 y2 z1 z2 mask kz))
       σ;
  (* extract ky-kz coordinates *)
  let '(samples, σ) := alloc (PairList []) σ in
  σ ← for_each (range 0 ky_dim) (fun ky =>
         for_each (range 0 kz_dim)
                  (extract_step_store ky_dim kz_dim mask samples ky))
       σ;
  '(samples, σ) ← np_array samples σ;
  Ok ((mask, samples), σ).

(** ** The 32-bit splitter *)

(** [int(x)]: the identity on an integer (it raises only on values that are
    not numbers, which [Z] excludes). *)
Definition py_int (x : Z) : result Z := Ok x.

Definition split32to16 (int32_value : Z) : result (Z * Z) :=
  int32_value ← py_int int32_value;
  let high16 := Z.land (Z.shiftr int32_value 16) 0xFFFF in
  let low16_unsigned := Z.land int32_value 0xFFFF in
  let low16 :=
    if 2 ^ 15 <=? low16_unsigned then low16_unsigned - 2 ^ 16
    else low16_unsigned in
  Ok (low16, high16).

(** ** Module level: summary and LUT export *)

(** [samples.min(axis=0)] and [samples.max(axis=0)] on an (n, 2) array. *)
Definition reduce_axis0 (f : Z -> Z -> Z) (samples : list (Z * Z))
  : result (Z * Z) :=
  match samples with
  | [] => Raise ValueError
  | s :: rest => Ok (foldl (fun acc x => (f acc.1 x.1, f acc.2 x.2)) s rest)
  end.

Record summary : Type := Summary {
  AF : quotient;
  NE : Z;
  k_min : Z * Z;
  k_max : Z * Z
}.

Definition summarise (t : count_type) (mask : ndarray) (samples : list (Z * Z))
  : result summary :=
  af ← size_over_count t (size mask) (count_nonzero mask);
  let ne := Z.of_nat (length samples) in
  mins ← reduce_axis0 Z.min samples;
  maxs ← reduce_axis0 Z.max samples;
  Ok (Summary af ne mins maxs).

(** [f"{n}"] for an integer. *)
Definition str (n : Z) : string := NilZero.string_of_int (Z.to_int n).

Definition newline : string := String "010"%char EmptyString.

(** [f.write(s)] on the text written so far. *)
Definition write (f s : string) : string := f +:+ s.

Definition export_lut (ne : Z) (samples : list (Z * Z)) : result string :=
  '(l16, h16) ← split32to16 ne;
  let f := EmptyString in
  let f := write f (str l16 +:+ newline) in
  let f := write f (str h16 +:+ newline) in
  Ok (foldl (fun f sample =>
               let f := write f (str sample.1 +:+ newline) in
               write f (str sample.2 +:+ newline))
            f samples).

(** The script from the generator call to the written file. *)
Definition run (t : count_type) (size_of_kspace acs_size : Z * Z) (Ry Rz : Z)
  : result (summary * string) :=
  '(mask, samples) ← grappa3D_pattern size_of_kspace Ry Rz acs_size;
  s ← summarise t mask samples;
  f ← export_lut (NE s) samples;
  Ok (s, f).

(** ** Specification vocabulary *)

(** The preconditions of the generator. *)
Definition valid_input (size_of_kspace : Z * Z) (Ry Rz : Z) (ACSdim : Z * Z)
  : Prop :=
  let '(ky_dim, kz_dim) := size_of_kspace in
  let '(acs_y, acs_z) := ACSdim in
  (0 < ky_dim /\ 0 < kz_dim) /\
  (0 < acs_y /\ 0 < acs_z) /\
  (acs_y <= ky_dim /\ acs_z <= kz_dim) /\
  (1 <= Ry /\ 1 <= Rz) /\
  (1 <= acs_lo ky_dim acs_y <= ky_dim /\ 1 <= acs_hi ky_dim acs_y <= ky_dim) /\
  (1 <= acs_lo kz_dim acs_z <= kz_dim /\ 1 <= acs_hi kz_dim acs_z <= kz_dim).

(** Inside the inclusive 1-based rectangle. *)
Definition in_acs (y1 y2 z1 z2 ky kz : Z) : bool :=
  (y1 <=? ky) && (ky <=? y2) && ((z1 <=? kz) && (kz <=? z2)).

(** On the lattice anchored at the lower ACS corner. *)
Definition on_lattice (Ry Rz y1 z1 ky kz : Z) : bool :=
  ((ky - y1) mod Ry =? 0) && ((kz - z1) mod Rz =? 0).

(** Off the ACS rectangle and on the lattice. *)
Definition outside_on_lattice (Ry Rz y1 y2 z1 z2 ky kz : Z) : bool :=
  negb (in_acs y1 y2 z1 z2 ky kz) && on_lattice Ry Rz y1 z1 ky kz.

(** The reference characterisation of the mask, cell by cell, as the
    specification words it (1-based [ky], [kz]): true inside the ACS
    rectangle, and outside it exactly on the lattice. *)
Definition reference_cell (Ry Rz y1 y2 z1 z2 ky kz : Z) : bool :=
  in_acs y1 y2 z1 z2 ky kz || outside_on_lattice Ry Rz y1 y2 z1 z2 ky kz.

Definition reference_mask (size_of_kspace : Z * Z) (Ry Rz : Z) (ACSdim : Z * Z)
  : ndarray :=
  let '(ky_dim, kz_dim) := size_of_kspace in
  let y1 := acs_lo ky_dim ACSdim.1 in
  let y2 := acs_hi ky_dim ACSdim.1 in
  let z1 := acs_lo kz_dim ACSdim.2 in
  let z2 := acs_hi kz_dim ACSdim.2 in
  (fun ky => reference_cell Ry Rz y1 y2 z1 z2 ky <$> range 1 (kz_dim + 1))
    <$> range 1 (ky_dim + 1).

(** The mask expected on the 8 x 8 grid with a 4 x 4 ACS region and factors
    2 x 2: the ACS rectangle [3..6] x [3..6] and, outside it, the lattice in
    phase with its corner. *)
Definition expected_mask_8x8 : ndarray :=
  (fun ky => reference_cell 2 2 3 6 3 6 ky <$> range 1 9) <$> range 1 9.

(** The 0-based indices of a [ky_dim] x [kz_dim] grid in row-major order. *)
Definition row_major (ky_dim kz_dim : Z) : list (Z * Z) :=
  ky ← range 0 ky_dim; pair ky <$> range 0 kz_dim.

(** [mask[ky, kz]] is true. *)
Definition sampled (mask : ndarray) (p : Z * Z) : Prop :=
  getitem mask p.1 p.2 = Ok true.

(** The centring shift of the extraction loop. *)
Definition centred (ky_dim kz_dim : Z) (p : Z * Z) : Z * Z :=
  (p.1 - ky_dim / 2, p.2 - kz_dim / 2).

(** Lexicographic order on pairs: [ky] first, then [kz]. *)
Definition lex_lt (p q : Z * Z) : Prop :=
  p.1 < q.1 \/ (p.1 = q.1 /\ p.2 < q.2).

(** The text of a file made of the given lines, each newline-terminated. *)
Definition unlines (lines : list string) : string :=
  foldr (fun line rest => line +:+ newline +:+ rest) EmptyString lines.

(** The number of newline characters of a text. *)
Fixpoint line_count (s : string) : nat :=
  match s with
  | EmptyString => 0
  | String c rest =>
      (if Ascii.eqb c "010"%char then 1 else 0) + line_count rest
  end.

(** The lines of the LUT file of a sample list, as the specification lists
    them. *)
Definition lut_lines (l16 h16 : Z) (samples : list (Z * Z)) : list string :=
  str l16 :: str h16 :: (samples ≫= fun sample => [str sample.1; str sample.2]).

Global Instance exn_eq_dec : EqDecision exn.
Proof. solve_decision. Defined.
Global Instance result_eq_dec {A} `{EqDecision A} : EqDecision (result A).
Proof. solve_decision. Defined.
Global Instance sampled_dec mask p : Decision (sampled mask p).
Proof. unfold sampled. apply _. Defined.

(** A size on which the float arithmetic of the ACS bounds is exact. *)
Definition float_exact (n : Z) : Prop := - 2 ^ 51 <= n <= 2 ^ 51.

(** A grid dimension that NumPy takes: it fits a signed 32-bit integer, so
    that a grid of two such dimensions is within [np.zeros]'s size limit. *)
Definition int32 (n : Z) : Prop := - 2 ^ 31 <= n < 2 ^ 31.

(** The lattice test of the 1-based cell [(ky, kz)] divides by zero: the
    cell is off the ACS rectangle, and either [Ry] is zero, or the first
    residue is zero (so the second is computed) and [Rz] is zero. *)
Definition divides_by_zero (Ry Rz y1 y2 z1 z2 ky kz : Z) : bool :=
  negb (in_acs y1 y2 z1 z2 ky kz)
  && ((Ry =? 0) || (((ky - y1) mod Ry =? 0) && (Rz =? 0))).

(** The mask with every cell true. *)
Definition full_mask (ky_dim kz_dim : Z) : ndarray :=
  replicate (Z.to_nat ky_dim) (replicate (Z.to_nat kz_dim) true).

(** The mask whose only true cell is the last one. *)
Definition last_cell_mask (ky_dim kz_dim : Z) : ndarray :=
  replicate (Z.to_nat ky_dim - 1) (replicate (Z.to_nat kz_dim) false)
  ++ [replicate (Z.to_nat kz_dim - 1) false ++ [true]].

(** Proof vocabulary: the cell at 0-based [(i, j)] ([false] when absent) and
    the shape of an array. *)
Definition cell (m : ndarray) (i j : nat) : bool :=
  default false (row ← m !! i; row !! j).

Definition shaped (ny nz : nat) (m : ndarray) : Prop :=
  length m = ny /\ Forall (fun row => length row = nz) m.

(** * Properties *)

(** ** The error monad and loops *)

Lemma bind_Ok_l {A B} (a : A) (f : A -> result B) : Ok a ≫= f = f a.
Proof. reflexivity. Qed.

(** A loop that keeps an invariant of the elements already visited runs to
    its end and establishes the invariant for the whole list. *)
Lemma for_each_invariant {S : Type} (Inv : list Z -> S -> Prop) (P : Z -> Prop)
    (body : Z -> S -> result S) (xs : list Z) (s : S) :
  Forall P xs ->
  Inv [] s ->
  (forall done x s, P x -> Inv done s ->
     exists s', body x s = Ok s' /\ Inv (done ++ [x]) s') ->
  exists s', for_each xs body s = Ok s' /\ Inv xs s'.
Proof.
  intros HP Hinit Hstep.
  cut (forall pre s, Forall P xs -> Inv pre s ->
         exists s', for_each xs body s = Ok s' /\ Inv (pre ++ xs) s').
  { intros H. apply (H [] s); auto. }
  clear s HP Hinit. induction xs as [|x xs IH]; intros pre s HP Hinv.
  - exists s. by rewrite app_nil_r.
  - inversion_clear HP as [|? ? Hx Hxs].
    destruct (Hstep pre x s Hx Hinv) as (s1 & Hb & Hinv1).
    destruct (IH (pre ++ [x]) s1 Hxs Hinv1) as (s2 & Hrun & Hinv2).
    exists s2. simpl. rewrite Hb, bind_Ok_l. split; [done|].
    by rewrite <- app_assoc in Hinv2.
Qed.

Lemma Forall_range (a b : Z) : Forall (fun x => a <= x < b) (range a b).
Proof. unfold range. apply Forall_seqZ. lia. Qed.

Lemma elem_of_range (a b x : Z) : x ∈ range a b <-> a <= x < b.
Proof. unfold range. rewrite elem_of_seqZ. lia. Qed.

(** ** Arrays *)

Section arrays.
Context (ny nz : nat).
Implicit Types (m : ndarray) (i j : nat).

Lemma shaped_row m i :
  shaped ny nz m -> (i < ny)%nat ->
  exists row, m !! i = Some row /\ length row = nz.
Proof.
  intros [Hlen Hrows] Hi.
  destruct (lookup_lt_is_Some_2 m i) as [row Hrow]; [lia|].
  exists row. split; [done|].
  by apply (proj1 (Forall_lookup _ _) Hrows i row).
Qed.

Lemma cell_row m i j row :
  m !! i = Some row -> cell m i j = default false (row !! j).
Proof. intros H. unfold cell. by rewrite H. Qed.

Lemma ndarray_ext m1 m2 :
  shaped ny nz m1 -> shaped ny nz m2 ->
  (forall i j, (i < ny)%nat -> (j < nz)%nat -> cell m1 i j = cell m2 i j) ->
  m1 = m2.
Proof.
  intros H1 H2 Hcell. apply list_eq. intros i.
  destruct (decide (i < ny)%nat) as [Hi|Hi].
  - destruct (shaped_row m1 i H1 Hi) as (r1 & Hr1 & Hl1).
    destruct (shaped_row m2 i H2 Hi) as (r2 & Hr2 & Hl2).
    rewrite Hr1, Hr2. f_equal. apply list_eq. intros j.
    destruct (decide (j < nz)%nat) as [Hj|Hj].
    + specialize (Hcell i j Hi Hj).
      rewrite (cell_row m1 i j r1 Hr1), (cell_row m2 i j r2 Hr2) in Hcell.
      destruct (lookup_lt_is_Some_2 r1 j) as [b1 Hb1]; [lia|].
      destruct (lookup_lt_is_Some_2 r2 j) as [b2 Hb2]; [lia|].
      rewrite Hb1, Hb2 in *. simpl in Hcell. by subst.
    + rewrite !lookup_ge_None_2 by lia. done.
  - destruct H1 as [H1 _], H2 as [H2 _].
    rewrite !lookup_ge_None_2 by lia. done.
Qed.

Lemma zeros_shaped :
  zeros (Z.of_nat ny) (Z.of_nat nz) = Ok (replicate ny (replicate nz false))
  /\ shaped ny nz (replicate ny (replicate nz false)).
Proof.
  split.
  - unfold zeros.
    destruct (Z.ltb_spec (Z.of_nat ny) 0); [lia|].
    destruct (Z.ltb_spec (Z.of_nat nz) 0); [lia|].
    simpl. by rewrite !Nat2Z.id.
  - split; [apply length_replicate|].
    apply Forall_replicate, length_replicate.
Qed.

Lemma cell_zeros i j : cell (replicate ny (replicate nz false)) i j = false.
Proof.
  unfold cell.
  destruct (replicate ny (replicate nz false) !! i) as [row|] eqn:Hrow; [|done].
  apply lookup_replicate in Hrow as [-> _]. simpl.
  destruct (replicate nz false !! j) as [b|] eqn:Hb; [|done].
  by apply lookup_replicate in Hb as [-> _].
Qed.

Lemma setslice_shaped m a b c d v :
  shaped ny nz m -> shaped ny nz (setslice m a b c d v).
Proof.
  intros [Hlen Hrows]. split.
  - unfold setslice. by rewrite length_imap.
  - apply Forall_lookup. intros i row Hrow.
    unfold setslice in Hrow. rewrite list_lookup_imap in Hrow.
    destruct (m !! i) as [row0|] eqn:Hrow0; [|done].
    simpl in Hrow. injection Hrow as <-.
    pose proof (proj1 (Forall_lookup _ _) Hrows i row0 Hrow0) as Hl.
    simpl in Hl.
    destruct (in_slice _ _ _ _); [|done].
    unfold fill_row. by rewrite length_imap.
Qed.

Lemma cell_setslice m a b c d v i j :
  shaped ny nz m -> (i < ny)%nat -> (j < nz)%nat ->
  cell (setslice m a b c d v) i j =
    if in_slice a b (Z.of_nat ny) i && in_slice c d (Z.of_nat nz) j
    then v else cell m i j.
Proof.
  intros Hm Hi Hj.
  destruct (shaped_row m i Hm Hi) as (row & Hrow & Hl).
  destruct Hm as [Hlen _].
  rewrite (cell_row m i j row Hrow).
  unfold cell, setslice. rewrite list_lookup_imap, Hrow. simpl.
  rewrite Hlen.
  destruct (in_slice a b (Z.of_nat ny) i); simpl; [|done].
  unfold fill_row. rewrite list_lookup_imap, Hl.
  destruct (lookup_lt_is_Some_2 row j) as [b0 Hb0]; [lia|].
  rewrite Hb0. simpl. by destruct (in_slice c d (Z.of_nat nz) j).
Qed.

Lemma index_adjust_in_range (i len : Z) :
  0 <= i < len -> index_adjust i len = Ok (Z.to_nat i).
Proof.
  intros H. unfold index_adjust.
  destruct (Z.ltb_spec i (- len)); [lia|].
  destruct (Z.leb_spec len i); [lia|]. simpl.
  destruct (Z.ltb_spec i 0); [lia|]. done.
Qed.

Lemma item_Some {A} (l : list A) i x : l !! i = Some x -> item l i = Ok x.
Proof. intros H. unfold item. by rewrite H. Qed.

Lemma getitem_cell m (i j : Z) :
  shaped ny nz m -> 0 <= i < Z.of_nat ny -> 0 <= j < Z.of_nat nz ->
  getitem m i j = Ok (cell m (Z.to_nat i) (Z.to_nat j)).
Proof.
  intros Hm Hi Hj.
  destruct (shaped_row m (Z.to_nat i) Hm) as (row & Hrow & Hl); [lia|].
  rewrite (cell_row m _ _ row Hrow).
  destruct (lookup_lt_is_Some_2 row (Z.to_nat j)) as [b Hb]; [lia|].
  unfold getitem. destruct Hm as [Hlen _].
  rewrite index_adjust_in_range, bind_Ok_l by lia.
  rewrite (item_Some _ _ _ Hrow), bind_Ok_l.
  rewrite index_adjust_in_range, bind_Ok_l by lia.
  rewrite (item_Some _ _ _ Hb). by rewrite Hb.
Qed.

Lemma setitem_cell m (i j : Z) v :
  shaped ny nz m -> 0 <= i < Z.of_nat ny -> 0 <= j < Z.of_nat nz ->
  exists m', setitem m i j v = Ok m' /\ shaped ny nz m' /\
    forall i' j', cell m' i' j' =
      if decide (i' = Z.to_nat i /\ j' = Z.to_nat j) then v else cell m i' j'.
Proof.
  intros Hm Hi Hj.
  destruct (shaped_row m (Z.to_nat i) Hm) as (row & Hrow & Hl); [lia|].
  pose proof Hm as [Hlen Hrows].
  exists (<[Z.to_nat i := <[Z.to_nat j := v]> row]> m). split; [|split].
  - unfold setitem.
    rewrite index_adjust_in_range, bind_Ok_l by lia.
    rewrite (item_Some _ _ _ Hrow), bind_Ok_l.
    rewrite index_adjust_in_range, bind_Ok_l by lia. done.
  - split; [by rewrite length_insert|].
    apply Forall_insert; [done|]. by rewrite length_insert.
  - intros i' j'. unfold cell.
    destruct (decide (i' = Z.to_nat i)) as [->|Hne].
    + rewrite list_lookup_insert_eq by lia. rewrite Hrow. simpl.
      destruct (decide (j' = Z.to_nat j)) as [->|Hne'].
      * rewrite list_lookup_insert_eq by lia.
        rewrite decide_True by done. done.
      * rewrite list_lookup_insert_ne by done.
        rewrite decide_False by tauto. done.
    + rewrite list_lookup_insert_ne by done.
      rewrite decide_False by tauto. done.
Qed.
End arrays.

(** ** The undersampling loop *)

Section lattice.
Context (ny nz : nat) (Ry Rz y1 y2 z1 z2 : Z).
Hypothesis HRy : Ry <> 0.
Hypothesis HRz : Rz <> 0.

Lemma py_mod_nonzero (a b : Z) : b <> 0 -> py_mod a b = Ok (a mod b).
Proof. intros H. unfold py_mod. by destruct (Z.eqb_spec b 0). Qed.

Lemma in_acs_test (ky kz : Z) :
  (z1 <=? kz) && (kz <=? z2) && ((y1 <=? ky) && (ky <=? y2))
  = in_acs y1 y2 z1 z2 ky kz.
Proof.
  unfold in_acs.
  by destruct (z1 <=? kz), (kz <=? z2), (y1 <=? ky), (ky <=? y2).
Qed.

(** One visit of the cell [(ky, kz)]: it can only switch that cell on. *)
Lemma lattice_step_spec (m : ndarray) (ky kz : Z) :
  shaped ny nz m -> 1 <= ky <= Z.of_nat ny -> 1 <= kz <= Z.of_nat nz ->
  exists m', lattice_step Ry Rz y1 y2 z1 z2 kz ky m = Ok m' /\
    shaped ny nz m' /\
    forall i j, cell m' i j = true <->
      cell m i j = true \/
      (Z.of_nat i + 1 = ky /\ Z.of_nat j + 1 = kz /\
       outside_on_lattice Ry Rz y1 y2 z1 z2 ky kz = true).
Proof.
  intros Hm Hky Hkz. unfold lattice_step, outside_on_lattice, on_lattice.
  rewrite in_acs_test.
  destruct (in_acs y1 y2 z1 z2 ky kz) eqn:Hin.
  - exists m. split; [done|]. split; [done|]. intros i j.
    simpl. intuition discriminate.
  - rewrite (py_mod_nonzero (ky - y1) Ry HRy), bind_Ok_l. cbv beta.
    destruct ((ky - y1) mod Ry =? 0) eqn:Hy; simpl.
    + rewrite (py_mod_nonzero (kz - z1) Rz HRz), bind_Ok_l. cbv beta.
      destruct ((kz - z1) mod Rz =? 0) eqn:Hz; simpl.
      * destruct (setitem_cell ny nz m (ky - 1) (kz - 1) true Hm)
          as (m' & Hset & Hm' & Hcell); [lia|lia|].
        exists m'. split; [done|]. split; [done|]. intros i j.
        rewrite Hcell. case_decide as Hd.
        -- split; [intros _; right; split_and!; [lia|lia|done]|done].
        -- split; [tauto|]. intros [?|(? & ? & _)]; [done|].
           exfalso. apply Hd. lia.
      * exists m. split; [done|]. split; [done|]. intuition discriminate.
    + exists m. split; [done|]. split; [done|]. intuition discriminate.
Qed.

(** The inner loop, over the rows of column [kz]. *)
Lemma lattice_column_spec (m : ndarray) (kz : Z) :
  shaped ny nz m -> 1 <= kz <= Z.of_nat nz ->
  exists m',
    for_each (range 1 (Z.of_nat ny + 1))
             (lattice_step Ry Rz y1 y2 z1 z2 kz) m = Ok m' /\
    shaped ny nz m' /\
    forall i j, cell m' i j = true <->
      cell m i j = true \/
      (1 <= Z.of_nat i + 1 <= Z.of_nat ny /\ Z.of_nat j + 1 = kz /\
       outside_on_lattice Ry Rz y1 y2 z1 z2
         (Z.of_nat i + 1) (Z.of_nat j + 1) = true).
Proof.
  intros Hm Hkz.
  destruct (for_each_invariant
    (fun done m' => shaped ny nz m' /\
       forall i j, cell m' i j = true <->
         cell m i j = true \/
         (Z.of_nat i + 1 ∈ done /\ Z.of_nat j + 1 = kz /\
          outside_on_lattice Ry Rz y1 y2 z1 z2
            (Z.of_nat i + 1) (Z.of_nat j + 1) = true))
    (fun ky => 1 <= ky < Z.of_nat ny + 1)
    (lattice_step Ry Rz y1 y2 z1 z2 kz)
    (range 1 (Z.of_nat ny + 1)) m) as (m' & Hrun & Hm' & Hcell).
  - apply Forall_range.
  - split; [done|]. intros i j. rewrite elem_of_nil. tauto.
  - intros done ky m1 Hky [Hm1 Hc1].
    destruct (lattice_step_spec m1 ky kz Hm1) as (m2 & Hstep & Hm2 & Hc2);
      [lia|lia|].
    exists m2. split; [done|]. split; [done|]. intros i j.
    rewrite Hc2, Hc1, elem_of_app, list_elem_of_singleton.
    split.
    + intros [[?|(? & ? & ?)]|(<- & <- & ?)]; auto 10.
    + intros [?|([?| ->] & <- & ?)]; auto 10.
  - exists m'. split; [done|]. split; [done|]. intros i j.
    rewrite Hcell, elem_of_range.
    assert (1 <= Z.of_nat i + 1 < Z.of_nat ny + 1
            <-> 1 <= Z.of_nat i + 1 <= Z.of_nat ny) as -> by lia.
    done.
Qed.

(** Both loops: every cell off the ACS rectangle and on the lattice is
    switched on, and nothing else changes. *)
Lemma lattice_loops_spec (m : ndarray) :
  shaped ny nz m ->
  exists m',
    for_each (range 1 (Z.of_nat nz + 1)) (fun kz =>
      for_each (range 1 (Z.of_nat ny + 1))
               (lattice_step Ry Rz y1 y2 z1 z2 kz)) m = Ok m' /\
    shaped ny nz m' /\
    forall i j, (i < ny)%nat -> (j < nz)%nat ->
      cell m' i j =
        cell m i j
        || outside_on_lattice Ry Rz y1 y2 z1 z2 (Z.of_nat i + 1) (Z.of_nat j + 1).
Proof.
  intros Hm.
  destruct (for_each_invariant
    (fun done m' => shaped ny nz m' /\
       forall i j, cell m' i j = true <->
         cell m i j = true \/
         (1 <= Z.of_nat i + 1 <= Z.of_nat ny /\ Z.of_nat j + 1 ∈ done /\
          outside_on_lattice Ry Rz y1 y2 z1 z2
            (Z.of_nat i + 1) (Z.of_nat j + 1) = true))
    (fun kz => 1 <= kz < Z.of_nat nz + 1)
    (fun kz => for_each (range 1 (Z.of_nat ny + 1))
                        (lattice_step Ry Rz y1 y2 z1 z2 kz))
    (range 1 (Z.of_nat nz + 1)) m) as (m' & Hrun & Hm' & Hcell).
  - apply Forall_range.
  - split; [done|]. intros i j. rewrite elem_of_nil. tauto.
  - intros done kz m1 Hkz [Hm1 Hc1].
    destruct (lattice_column_spec m1 kz Hm1) as (m2 & Hcol & Hm2 & Hc2);
      [lia|].
    exists m2. split; [done|]. split; [done|]. intros i j.
    rewrite Hc2, Hc1, elem_of_app, list_elem_of_singleton.
    split.
    + intros [[?|(? & ? & ?)]|(? & <- & ?)]; auto 10.
    + intros [?|(? & [?| ->] & ?)]; auto 10.
  - exists m'. split; [done|]. split; [done|]. intros i j Hi Hj.
    apply eq_true_iff_eq. rewrite Hcell, orb_true_iff, elem_of_range.
    split; [tauto|]. intros [?|?]; [tauto|]. right. split_and!; [lia..|done].
Qed.
End lattice.

(** ** The extraction loop *)

Lemma filter_ext_in {A : Type} (P Q : A -> Prop)
    `{!forall x, Decision (P x), !forall x, Decision (Q x)} (l : list A) :
  (forall x, x ∈ l -> P x <-> Q x) -> filter P l = filter Q l.
Proof.
  induction l as [|x l IH]; intros Hext; [done|].
  assert (filter P l = filter Q l) as IH'.
  { apply IH. intros y Hy. apply Hext. by right. }
  destruct (decide (P x)) as [HP|HP].
  - rewrite !filter_cons_True; [|by apply Hext; [left|]|done].
    by rewrite IH'.
  - rewrite !filter_cons_False; [done| |done].
    intros HQ. apply HP, Hext; [left|done].
Qed.

Lemma length_filter_fmap_ext {A B : Type} (P : A -> Prop) (Q : B -> Prop)
    `{!forall x, Decision (P x), !forall y, Decision (Q y)}
    (f : A -> B) (l : list A) :
  (forall x, x ∈ l -> P x <-> Q (f x)) ->
  length (filter Q (f <$> l)) = length (filter P l).
Proof.
  induction l as [|x l IH]; intros Hext; [done|].
  rewrite fmap_cons.
  assert (length (filter Q (f <$> l)) = length (filter P l)) as IH'.
  { apply IH. intros y Hy. apply Hext. by right. }
  destruct (decide (P x)) as [HP|HP].
  - rewrite !filter_cons_True; [|done|by apply Hext; [left|]].
    simpl. by rewrite IH'.
  - rewrite !filter_cons_False; [done|done|].
    intros HQ. apply HP, Hext; [left|done].
Qed.

Lemma StronglySorted_filter {A : Type} (R : relation A) (P : A -> Prop)
    `{!forall x, Decision (P x)} (l : list A) :
  StronglySorted R l -> StronglySorted R (filter P l).
Proof.
  induction 1 as [|x l Hl IH Hx]; [constructor|].
  rewrite filter_cons. case_decide; [|done].
  constructor; [done|].
  apply Forall_forall. intros y [_ Hy]%list_elem_of_filter.
  by apply (proj1 (Forall_forall _ _) Hx).
Qed.

(** The number of [True] entries of a row, counted through its indices. *)
Lemma count_true_indices (row : list bool) :
  length (filter (fun kz => row !! Z.to_nat kz = Some true)
                 (range 0 (Z.of_nat (length row))))
  = count_true row.
Proof.
  unfold range, count_true. rewrite Z.sub_0_r.
  induction row as [|b row IH] using rev_ind; [done|].
  rewrite length_app, Nat.add_1_r, seqZ_S, !filter_app, !length_app.
  f_equal.
  - rewrite <- IH. f_equal. apply filter_ext_in.
    intros kz [Hlo Hhi]%elem_of_seqZ.
    rewrite lookup_app_l by lia. done.
  - rewrite !(filter_singleton _ _ []).
    rewrite Z.add_0_l, Nat2Z.id, list_lookup_middle by done.
    destruct b; by repeat case_decide.
Qed.

Section extraction.
Context (ny nz : nat) (m : ndarray) (ky_dim kz_dim : Z).
Hypothesis Hm : shaped ny nz m.

Lemma sampled_cell (ky kz : Z) :
  0 <= ky < Z.of_nat ny -> 0 <= kz < Z.of_nat nz ->
  sampled m (ky, kz) <-> cell m (Z.to_nat ky) (Z.to_nat kz) = true.
Proof.
  intros Hky Hkz. unfold sampled. simpl.
  rewrite (getitem_cell ny nz m ky kz Hm Hky Hkz).
  split; [by intros [= ->]|by intros ->].
Qed.

Lemma extract_step_spec (ky kz : Z) (samples : list (Z * Z)) :
  0 <= ky < Z.of_nat ny -> 0 <= kz < Z.of_nat nz ->
  extract_step ky_dim kz_dim m ky kz samples
  = Ok (samples ++ (centred ky_dim kz_dim <$> filter (sampled m) [(ky, kz)])).
Proof.
  intros Hky Hkz. unfold extract_step.
  rewrite (getitem_cell ny nz m ky kz Hm Hky Hkz), bind_Ok_l.
  pose proof (sampled_cell ky kz Hky Hkz) as Hs.
  destruct (cell m (Z.to_nat ky) (Z.to_nat kz)).
  - rewrite filter_cons_True by tauto. done.
  - rewrite filter_cons_False; [by rewrite app_nil_r|].
    intros H. by apply Hs in H.
Qed.

(** The inner loop appends the centred coordinates of the true cells of
    row [ky], in the order of the columns visited. *)
Lemma extract_row_spec (ky : Z) (xs : list Z) (samples : list (Z * Z)) :
  0 <= ky < Z.of_nat ny ->
  Forall (fun kz => 0 <= kz < Z.of_nat nz) xs ->
  for_each xs (extract_step ky_dim kz_dim m ky) samples
  = Ok (samples ++
        (centred ky_dim kz_dim <$> filter (sampled m) (pair ky <$> xs))).
Proof.
  intros Hky Hxs. revert samples.
  induction Hxs as [|kz xs Hkz _ IH]; intros samples.
  - simpl. by rewrite app_nil_r.
  - cbn [for_each].
    rewrite (extract_step_spec ky kz samples Hky Hkz), bind_Ok_l, IH.
    rewrite fmap_cons, !filter_cons, filter_nil, <- app_assoc.
    by case_decide.
Qed.

Lemma extract_rows_spec (ys : list Z) (samples : list (Z * Z)) :
  Forall (fun ky => 0 <= ky < Z.of_nat ny) ys ->
  for_each ys (fun ky =>
    for_each (range 0 (Z.of_nat nz)) (extract_step ky_dim kz_dim m ky)) samples
  = Ok (samples ++
        (centred ky_dim kz_dim <$>
           filter (sampled m) (ys ≫= fun ky => pair ky <$> range 0 (Z.of_nat nz)))).
Proof.
  intros Hys. revert samples.
  induction Hys as [|ky ys Hky _ IH]; intros samples.
  - simpl. by rewrite app_nil_r.
  - cbn [for_each].
    rewrite (extract_row_spec ky _ samples Hky (Forall_range _ _)), bind_Ok_l.
    rewrite IH, bind_cons, filter_app, fmap_app, <- app_assoc. done.
Qed.

(** Both loops, started on the empty list. *)
Lemma extract_loops_spec :
  for_each (range 0 (Z.of_nat ny)) (fun ky =>
    for_each (range 0 (Z.of_nat nz)) (extract_step ky_dim kz_dim m ky)) []
  = Ok (centred ky_dim kz_dim <$>
          filter (sampled m) (row_major (Z.of_nat ny) (Z.of_nat nz))).
Proof. by rewrite (extract_rows_spec _ [] (Forall_range _ _)). Qed.

Lemma length_sampled_row (ky : Z) (row : list bool) :
  0 <= ky < Z.of_nat ny -> m !! Z.to_nat ky = Some row ->
  length (filter (sampled m) (pair ky <$> range 0 (Z.of_nat nz)))
  = count_true row.
Proof.
  intros Hky Hrow.
  assert (length row = nz) as Hl.
  { destruct Hm as [_ Hrows].
    by apply (proj1 (Forall_lookup _ _) Hrows _ _ Hrow). }
  rewrite <- (count_true_indices row), Hl.
  apply length_filter_fmap_ext. intros kz Hkz%elem_of_range.
  rewrite sampled_cell by lia.
  rewrite (cell_row m _ _ row Hrow).
  destruct (row !! Z.to_nat kz) as [[]|]; simpl; split; congruence.
Qed.

Lemma length_sampled_rows (n : nat) :
  (n <= ny)%nat ->
  length (filter (sampled m)
            (seqZ 0 (Z.of_nat n) ≫= fun ky => pair ky <$> range 0 (Z.of_nat nz)))
  = sum_list_with count_true (take n m).
Proof.
  induction n as [|n IH]; intros Hn; [done|].
  destruct (shaped_row ny nz m n Hm) as (row & Hrow & _); [lia|].
  rewrite seqZ_S, bind_app, filter_app, length_app, IH by lia.
  rewrite (take_S_r m n row Hrow), sum_list_with_app. f_equal.
  simpl. rewrite app_nil_r, Z.add_0_l, Nat.add_0_r.
  apply length_sampled_row; [lia|]. by rewrite Nat2Z.id.
Qed.

(** The true cells met by a row-major scan are counted by
    [np.count_nonzero]. *)
Lemma length_sampled_row_major :
  Z.of_nat (length (filter (sampled m)
                      (row_major (Z.of_nat ny) (Z.of_nat nz))))
  = count_nonzero m.
Proof.
  unfold row_major, range, count_nonzero. rewrite Z.sub_0_r.
  rewrite Z.sub_0_r, <- (Z.sub_0_r (Z.of_nat nz)).
  fold (range 0 (Z.of_nat nz)).
  rewrite length_sampled_rows by done.
  destruct Hm as [Hlen _]. by rewrite take_ge by lia.
Qed.
End extraction.

(** The row-major index list is strictly increasing in the lexicographic
    order ([ky] first, then [kz]). *)
Lemma row_major_sorted (ky_dim kz_dim : Z) :
  StronglySorted lex_lt (row_major ky_dim kz_dim).
Proof.
  unfold row_major, range. rewrite !Z.sub_0_r.
  assert (forall ky n, StronglySorted lex_lt (pair ky <$> seqZ 0 (Z.of_nat n)))
    as Hrow.
  { intros ky n. induction n as [|n IH]; [constructor|].
    rewrite seqZ_S, fmap_app. apply StronglySorted_app; split_and!.
    - intros p q (x & -> & Hx%elem_of_seqZ)%list_elem_of_fmap
                 (y & -> & Hy%list_elem_of_singleton)%list_elem_of_fmap.
      right. simpl. lia.
    - done.
    - repeat constructor. }
  assert (forall n, StronglySorted lex_lt
            (seqZ 0 (Z.of_nat n) ≫= fun ky => pair ky <$> seqZ 0 kz_dim))
    as Hrows.
  { induction n as [|n IH]; [constructor|].
    rewrite seqZ_S, bind_app. apply StronglySorted_app; split_and!.
    - intros p q (x & Hp & Hx%elem_of_seqZ)%list_elem_of_bind
                 (y & Hq & Hy%list_elem_of_singleton)%list_elem_of_bind.
      apply list_elem_of_fmap in Hp as (? & -> & _).
      apply list_elem_of_fmap in Hq as (? & -> & _).
      left. simpl. lia.
    - done.
    - simpl. rewrite app_nil_r.
      destruct (Z.le_gt_cases 0 kz_dim).
      + rewrite <- (Z2Nat.id kz_dim) by done. apply Hrow.
      + rewrite seqZ_nil by lia. constructor. }
  destruct (Z.le_gt_cases 0 ky_dim).
  - rewrite <- (Z2Nat.id ky_dim) by done. apply Hrows.
  - rewrite (seqZ_nil 0 ky_dim) by lia. constructor.
Qed.

(** ** The generator as a whole *)

Lemma grappa3D_pattern_run_nat (ny nz : nat) (Ry Rz : Z) (ACSdim : Z * Z) :
  Ry <> 0 -> Rz <> 0 ->
  let ky_dim := Z.of_nat ny in
  let kz_dim := Z.of_nat nz in
  let y1 := acs_lo ky_dim ACSdim.1 in
  let y2 := acs_hi ky_dim ACSdim.1 in
  let z1 := acs_lo kz_dim ACSdim.2 in
  let z2 := acs_hi kz_dim ACSdim.2 in
  exists mask,
    grappa3D_pattern (ky_dim, kz_dim) Ry Rz ACSdim
    = Ok (mask, centred ky_dim kz_dim <$>
                  filter (sampled mask) (row_major ky_dim kz_dim)) /\
    shaped ny nz mask /\
    forall i j, (i < ny)%nat -> (j < nz)%nat ->
      cell mask i j =
        in_slice (y1 - 1) y2 ky_dim i && in_slice (z1 - 1) z2 kz_dim j
        || negb (in_acs y1 y2 z1 z2 (Z.of_nat i + 1) (Z.of_nat j + 1))
           && on_lattice Ry Rz y1 z1 (Z.of_nat i + 1) (Z.of_nat j + 1).
Proof.
  intros HRy HRz ky_dim kz_dim y1 y2 z1 z2.
  destruct (zeros_shaped ny nz) as [Hzeros Hz0].
  set (m0 := replicate ny (replicate nz false)) in *.
  set (m1 := setslice m0 (y1 - 1) y2 (z1 - 1) z2 true).
  assert (shaped ny nz m1) as Hm1 by by apply setslice_shaped.
  destruct (lattice_loops_spec ny nz Ry Rz y1 y2 z1 z2 HRy HRz m1 Hm1)
    as (mask & Hloops & Hmask & Hcell).
  exists mask. split; [|split; [done|]].
  - unfold grappa3D_pattern.
    fold ky_dim kz_dim in Hzeros. rewrite Hzeros, bind_Ok_l.
    fold y1 y2 z1 z2. fold m0. fold m1.
    fold ky_dim kz_dim in Hloops. rewrite Hloops, bind_Ok_l.
    unfold ky_dim, kz_dim.
    by rewrite (extract_loops_spec ny nz mask _ _ Hmask), bind_Ok_l.
  - intros i j Hi Hj. rewrite (Hcell i j Hi Hj). f_equal.
    unfold m1. rewrite (cell_setslice ny nz) by done.
    unfold m0. rewrite cell_zeros.
    by destruct (in_slice _ _ _ i && in_slice _ _ _ j).
Qed.

(** The cell-wise content of the mask for any grid and any non-zero
    factors: the ACS slice as NumPy clips it, or a lattice cell off the ACS
    rectangle.  The sample list is the row-major scan of that mask. *)
Lemma grappa3D_pattern_run (ky_dim kz_dim Ry Rz : Z) (ACSdim : Z * Z) :
  0 <= ky_dim -> 0 <= kz_dim -> Ry <> 0 -> Rz <> 0 ->
  let y1 := acs_lo ky_dim ACSdim.1 in
  let y2 := acs_hi ky_dim ACSdim.1 in
  let z1 := acs_lo kz_dim ACSdim.2 in
  let z2 := acs_hi kz_dim ACSdim.2 in
  exists mask,
    grappa3D_pattern (ky_dim, kz_dim) Ry Rz ACSdim
    = Ok (mask, centred ky_dim kz_dim <$>
                  filter (sampled mask) (row_major ky_dim kz_dim)) /\
    shaped (Z.to_nat ky_dim) (Z.to_nat kz_dim) mask /\
    forall i j, (i < Z.to_nat ky_dim)%nat -> (j < Z.to_nat kz_dim)%nat ->
      cell mask i j =
        in_slice (y1 - 1) y2 ky_dim i && in_slice (z1 - 1) z2 kz_dim j
        || negb (in_acs y1 y2 z1 z2 (Z.of_nat i + 1) (Z.of_nat j + 1))
           && on_lattice Ry Rz y1 z1 (Z.of_nat i + 1) (Z.of_nat j + 1).
Proof.
  intros Hky Hkz HRy HRz.
  pose proof (grappa3D_pattern_run_nat (Z.to_nat ky_dim) (Z.to_nat kz_dim)
                Ry Rz ACSdim HRy HRz) as H.
  rewrite !Z2Nat.id in H by done. exact H.
Qed.

(** ** Rounding and the ACS bounds *)

(** [round] is within one half of its argument, and a tie goes to an even
    integer. *)
Lemma round_spec (n : Z) :
  2 * round (Half n) - 1 <= n <= 2 * round (Half n) + 1 /\
  (n <> 2 * round (Half n) -> Z.even (round (Half n)) = true).
Proof.
  unfold round. simpl.
  destruct (Z.even n) eqn:En.
  - apply Z.even_spec in En as [k ->].
    replace (2 * k / 2) with k by (apply Z.div_unique_exact; lia).
    lia.
  - assert (Z.odd n = true) as [k ->]%Z.odd_spec
      by (rewrite <- Z.negb_even, En; done).
    replace ((2 * k + 1) / 2) with k
      by (apply (Z.div_unique (2 * k + 1) 2 k 1); lia).
    destruct (Z.even k) eqn:Ek; [split; [lia|done]|].
    split; [lia|]. intros _. by rewrite Z.even_add, Ek.
Qed.

Lemma round_mono (x y : half) : twice x <= twice y -> round x <= round y.
Proof.
  destruct x as [a], y as [b]. simpl. intros Hab.
  destruct (round_spec a) as [Ha Ea], (round_spec b) as [Hb Eb].
  destruct (Z.le_gt_cases (round (Half a)) (round (Half b))) as [|Hlt]; [done|].
  exfalso.
  assert (a <> 2 * round (Half a)) as [ka Hka]%Ea%Z.even_spec by lia.
  assert (b <> 2 * round (Half b)) as [kb Hkb]%Eb%Z.even_spec by lia.
  lia.
Qed.

(** A positive ACS size gives a non-empty ACS interval. *)
Lemma acs_lo_le_hi (dim acs : Z) : 1 <= acs -> acs_lo dim acs <= acs_hi dim acs.
Proof. intros H. unfold acs_lo, acs_hi. apply round_mono. simpl. lia. Qed.

(** When the ACS bounds lie in the grid the slice is the 1-based interval. *)
Lemma in_slice_interval (a b len : Z) (i : nat) :
  1 <= a <= len + 1 -> 0 <= b <= len ->
  in_slice (a - 1) b len i = (a <=? Z.of_nat i + 1) && (Z.of_nat i + 1 <=? b).
Proof.
  intros Ha Hb. unfold in_slice, slice_adjust.
  destruct (Z.ltb_spec (a - 1) 0); [lia|].
  destruct (Z.ltb_spec b 0); [lia|].
  rewrite !Z.min_l by lia.
  destruct (Z.leb_spec (a - 1) (Z.of_nat i)), (Z.leb_spec a (Z.of_nat i + 1));
    try lia;
  destruct (Z.ltb_spec (Z.of_nat i) b), (Z.leb_spec (Z.of_nat i + 1) b);
    try lia; done.
Qed.

(** ** The reference mask *)

Lemma reference_mask_shaped (ky_dim kz_dim Ry Rz : Z) (ACSdim : Z * Z) :
  shaped (Z.to_nat ky_dim) (Z.to_nat kz_dim)
         (reference_mask (ky_dim, kz_dim) Ry Rz ACSdim).
Proof.
  unfold reference_mask, range. split.
  - rewrite length_fmap, length_seqZ. f_equal. lia.
  - apply Forall_fmap, Forall_forall. intros ky _. simpl.
    rewrite length_fmap, length_seqZ. f_equal. lia.
Qed.

Lemma cell_reference_mask (ky_dim kz_dim Ry Rz : Z) (ACSdim : Z * Z) (i j : nat) :
  (i < Z.to_nat ky_dim)%nat -> (j < Z.to_nat kz_dim)%nat ->
  cell (reference_mask (ky_dim, kz_dim) Ry Rz ACSdim) i j
  = reference_cell Ry Rz
      (acs_lo ky_dim ACSdim.1) (acs_hi ky_dim ACSdim.1)
      (acs_lo kz_dim ACSdim.2) (acs_hi kz_dim ACSdim.2)
      (Z.of_nat i + 1) (Z.of_nat j + 1).
Proof.
  intros Hi Hj. unfold cell, reference_mask, range.
  rewrite list_lookup_fmap, lookup_seqZ_lt by lia. simpl.
  rewrite list_lookup_fmap, lookup_seqZ_lt by lia. simpl.
  by rewrite !(Z.add_comm 1).
Qed.

(** ** The generator on valid input *)

Lemma valid_input_nonzero (ky_dim kz_dim Ry Rz : Z) (ACSdim : Z * Z) :
  valid_input (ky_dim, kz_dim) Ry Rz ACSdim ->
  0 <= ky_dim /\ 0 <= kz_dim /\ Ry <> 0 /\ Rz <> 0.
Proof. destruct ACSdim. unfold valid_input. lia. Qed.

(** On any grid and for any non-zero factors the generator returns. *)
Lemma grappa3D_pattern_total (ky_dim kz_dim Ry Rz : Z) (ACSdim : Z * Z) :
  0 <= ky_dim -> 0 <= kz_dim -> Ry <> 0 -> Rz <> 0 ->
  succeeds (grappa3D_pattern (ky_dim, kz_dim) Ry Rz ACSdim).
Proof.
  intros Hky Hkz HRy HRz.
  destruct (grappa3D_pattern_run ky_dim kz_dim Ry Rz ACSdim Hky Hkz HRy HRz)
    as (mask & Hrun & _).
  by eexists.
Qed.

(** The exceptions the generator does raise are NumPy's and Python's own:
    a negative grid dimension stops [np.zeros], a zero factor stops [%]. *)
Lemma grappa3D_pattern_negative_grid (ky_dim kz_dim Ry Rz : Z) (ACSdim : Z * Z) :
  ky_dim < 0 \/ kz_dim < 0 ->
  grappa3D_pattern (ky_dim, kz_dim) Ry Rz ACSdim = Raise ValueError.
Proof.
  intros Hneg. unfold grappa3D_pattern, zeros.
  destruct (Z.ltb_spec ky_dim 0), (Z.ltb_spec kz_dim 0);
    try lia; reflexivity.
Qed.

Example grappa3D_pattern_zero_factor :
  grappa3D_pattern (8, 8) 0 2 (4, 4) = Raise ZeroDivisionError.
Proof. vm_compute. reflexivity. Qed.

(** On valid input the mask has the grid's shape, each of its cells is the
    reference cell, and the samples are the row-major scan of the mask. *)
Lemma grappa3D_pattern_valid_run (ky_dim kz_dim Ry Rz : Z) (ACSdim : Z * Z) :
  valid_input (ky_dim, kz_dim) Ry Rz ACSdim ->
  exists mask,
    grappa3D_pattern (ky_dim, kz_dim) Ry Rz ACSdim
    = Ok (mask, centred ky_dim kz_dim <$>
                  filter (sampled mask) (row_major ky_dim kz_dim)) /\
    shaped (Z.to_nat ky_dim) (Z.to_nat kz_dim) mask /\
    forall i j, (i < Z.to_nat ky_dim)%nat -> (j < Z.to_nat kz_dim)%nat ->
      cell mask i j =
        reference_cell Ry Rz
          (acs_lo ky_dim ACSdim.1) (acs_hi ky_dim ACSdim.1)
          (acs_lo kz_dim ACSdim.2) (acs_hi kz_dim ACSdim.2)
          (Z.of_nat i + 1) (Z.of_nat j + 1).
Proof.
  intros Hvalid.
  destruct (valid_input_nonzero _ _ _ _ _ Hvalid) as (Hky & Hkz & HRy & HRz).
  destruct (grappa3D_pattern_run ky_dim kz_dim Ry Rz ACSdim Hky Hkz HRy HRz)
    as (mask & Hrun & Hmask & Hcell).
  exists mask. split; [done|]. split; [done|]. intros i j Hi Hj.
  rewrite (Hcell i j Hi Hj). unfold reference_cell. f_equal.
  destruct ACSdim as [acs_y acs_z]. unfold valid_input in Hvalid. simpl in *.
  rewrite !in_slice_interval by lia. done.
Qed.

Lemma elem_of_row_major (ky_dim kz_dim : Z) (p : Z * Z) :
  p ∈ row_major ky_dim kz_dim <-> 0 <= p.1 < ky_dim /\ 0 <= p.2 < kz_dim.
Proof.
  unfold row_major. rewrite list_elem_of_bind. split.
  - intros (ky & (kz & -> & Hkz%elem_of_range)%list_elem_of_fmap
               & Hky%elem_of_range).
    simpl. lia.
  - destruct p as [ky kz]. simpl. intros [Hky Hkz]. exists ky. split.
    + apply list_elem_of_fmap. exists kz. by rewrite elem_of_range.
    + by rewrite elem_of_range.
Qed.

(** **** Claim C1 *)

(** C1. For every valid input the generator returns, and the mask it
    returns is the reference mask: the cell at 1-based [(ky, kz)] is true
    iff it lies in the inclusive ACS rectangle [y1..y2] x [z1..z2], or lies
    outside it with [(ky - y1) mod Ry = 0] and [(kz - z1) mod Rz = 0]. *)
Theorem grappa3D_pattern_mask_reference
    (size_of_kspace : Z * Z) (Ry Rz : Z) (ACSdim : Z * Z) :
  valid_input size_of_kspace Ry Rz ACSdim ->
  exists mask samples,
    grappa3D_pattern size_of_kspace Ry Rz ACSdim = Ok (mask, samples) /\
    mask = reference_mask size_of_kspace Ry Rz ACSdim /\
    forall ky kz,
      1 <= ky <= size_of_kspace.1 -> 1 <= kz <= size_of_kspace.2 ->
      getitem mask (ky - 1) (kz - 1)
      = Ok (reference_cell Ry Rz
              (acs_lo size_of_kspace.1 ACSdim.1) (acs_hi size_of_kspace.1 ACSdim.1)
              (acs_lo size_of_kspace.2 ACSdim.2) (acs_hi size_of_kspace.2 ACSdim.2)
              ky kz).
Proof.
  destruct size_of_kspace as [ky_dim kz_dim]. intros Hvalid.
  destruct (grappa3D_pattern_valid_run _ _ _ _ _ Hvalid)
    as (mask & Hrun & Hmask & Hcell).
  exists mask. eexists. split; [exact Hrun|]. split.
  - apply (ndarray_ext (Z.to_nat ky_dim) (Z.to_nat kz_dim)); [done| |].
    + apply reference_mask_shaped.
    + intros i j Hi Hj.
      by rewrite (Hcell i j Hi Hj), cell_reference_mask.
  - simpl. intros ky kz Hky Hkz.
    rewrite (getitem_cell _ _ mask _ _ Hmask) by lia.
    rewrite Hcell by lia. do 2 f_equal; lia.
Qed.

Lemma grappa3D_pattern_mask_reference_witness :
  exists mask samples,
    grappa3D_pattern (8, 8) 2 2 (4, 4) = Ok (mask, samples) /\
    mask = reference_mask (8, 8) 2 2 (4, 4) /\
    forall ky kz, 1 <= ky <= 8 -> 1 <= kz <= 8 ->
      getitem mask (ky - 1) (kz - 1)
      = Ok (reference_cell 2 2 (acs_lo 8 4) (acs_hi 8 4) (acs_lo 8 4) (acs_hi 8 4)
              ky kz).
Proof.
  apply (grappa3D_pattern_mask_reference (8, 8) 2 2 (4, 4)).
  unfold valid_input. vm_compute. intuition discriminate.
Defined.

(** **** Claim C2 *)

Lemma centred_lex_lt (ky_dim kz_dim : Z) (p q : Z * Z) :
  lex_lt p q -> lex_lt (centred ky_dim kz_dim p) (centred ky_dim kz_dim q).
Proof. unfold lex_lt, centred. simpl. lia. Qed.

(** C2. For every valid input the sample list has exactly one entry per
    true cell of the mask: its length is [count_nonzero mask], it is the
    row-major scan ([ky] outer, [kz] inner, both ascending) of the true
    cells, each 0-based index [(ky, kz)] entered as
    [(ky - ky_dim // 2, kz - kz_dim // 2)], and hence strictly increasing in
    the lexicographic order. *)
Theorem grappa3D_pattern_samples_row_major
    (size_of_kspace : Z * Z) (Ry Rz : Z) (ACSdim : Z * Z) :
  valid_input size_of_kspace Ry Rz ACSdim ->
  exists mask samples,
    grappa3D_pattern size_of_kspace Ry Rz ACSdim = Ok (mask, samples) /\
    Z.of_nat (length samples) = count_nonzero mask /\
    samples
    = (fun p => (p.1 - size_of_kspace.1 / 2, p.2 - size_of_kspace.2 / 2))
        <$> filter (fun p => getitem mask p.1 p.2 = Ok true)
                   (row_major size_of_kspace.1 size_of_kspace.2) /\
    StronglySorted lex_lt samples.
Proof.
  destruct size_of_kspace as [ky_dim kz_dim]. intros Hvalid.
  destruct (valid_input_nonzero _ _ _ _ _ Hvalid) as (Hky & Hkz & _).
  destruct (grappa3D_pattern_valid_run _ _ _ _ _ Hvalid)
    as (mask & Hrun & Hmask & _).
  exists mask. eexists. split; [exact Hrun|]. split_and!.
  - rewrite length_fmap.
    rewrite <- (length_sampled_row_major _ _ mask Hmask).
    by rewrite !Z2Nat.id by done.
  - done.
  - apply (StronglySorted_fmap _ lex_lt); [apply centred_lex_lt|].
    apply StronglySorted_filter, row_major_sorted.
Qed.

Lemma grappa3D_pattern_samples_row_major_witness :
  exists mask samples,
    grappa3D_pattern (5, 4) 2 3 (3, 2) = Ok (mask, samples) /\
    Z.of_nat (length samples) = count_nonzero mask /\
    samples
    = (fun p => (p.1 - 5 / 2, p.2 - 4 / 2))
        <$> filter (fun p => getitem mask p.1 p.2 = Ok true) (row_major 5 4) /\
    StronglySorted lex_lt samples.
Proof.
  apply (grappa3D_pattern_samples_row_major (5, 4) 2 3 (3, 2)).
  unfold valid_input. vm_compute. intuition discriminate.
Defined.

(** **** Claim C9 *)

Lemma reduce_axis0_nonempty (f : Z -> Z -> Z) (samples : list (Z * Z)) :
  samples <> [] -> succeeds (reduce_axis0 f samples).
Proof. destruct samples; [done|]. intros _. by eexists. Qed.

(** The summary needs a true cell and a sample, and nothing else. *)
Lemma size_over_count_nonzero (t : count_type) (size count : Z) :
  count <> 0 ->
  size_over_count t size count = Ok (Finite (inject_Z size / inject_Z count)%Q).
Proof.
  intros Hcount. destruct t; unfold size_over_count, py_truediv, np_truediv;
    by destruct (Z.eqb_spec count 0).
Qed.

Lemma summarise_succeeds (t : count_type) (mask : ndarray)
    (samples : list (Z * Z)) :
  1 <= count_nonzero mask -> (1 <= length samples)%nat ->
  succeeds (summarise t mask samples).
Proof.
  intros Hcount Hlen. unfold summarise.
  rewrite size_over_count_nonzero, bind_Ok_l by lia.
  assert (samples <> []) as Hne by (intros ->; simpl in Hlen; lia).
  destruct (reduce_axis0_nonempty Z.min samples Hne) as [mins ->].
  destruct (reduce_axis0_nonempty Z.max samples Hne) as [maxs ->].
  rewrite !bind_Ok_l. by eexists.
Qed.

(** On valid input the lower ACS corner is a true cell of the mask, so the
    mask and the sample list are not empty. *)
Lemma grappa3D_pattern_valid_nonempty (ky_dim kz_dim Ry Rz : Z) (ACSdim : Z * Z) :
  valid_input (ky_dim, kz_dim) Ry Rz ACSdim ->
  exists mask samples,
    grappa3D_pattern (ky_dim, kz_dim) Ry Rz ACSdim = Ok (mask, samples) /\
    1 <= count_nonzero mask /\
    (1 <= length samples)%nat.
Proof.
  intros Hvalid.
  destruct (valid_input_nonzero _ _ _ _ _ Hvalid) as (Hky & Hkz & _).
  destruct (grappa3D_pattern_valid_run _ _ _ _ _ Hvalid)
    as (mask & Hrun & Hmask & Hcell).
  set (y1 := acs_lo ky_dim ACSdim.1) in *.
  set (z1 := acs_lo kz_dim ACSdim.2) in *.
  assert (1 <= y1 <= ky_dim /\ 1 <= z1 <= kz_dim /\
          y1 <= acs_hi ky_dim ACSdim.1 /\ z1 <= acs_hi kz_dim ACSdim.2)
    as (Hy1 & Hz1 & Hy & Hz).
  { destruct ACSdim as [acs_y acs_z]. unfold valid_input in Hvalid.
    pose proof (acs_lo_le_hi ky_dim acs_y).
    pose proof (acs_lo_le_hi kz_dim acs_z).
    simpl in *. unfold y1, z1. lia. }
  assert ((y1 - 1, z1 - 1) ∈ filter (sampled mask) (row_major ky_dim kz_dim))
    as Hin.
  { apply list_elem_of_filter. split.
    - apply (sampled_cell _ _ mask Hmask); [rewrite Z2Nat.id by done; lia..|].
      rewrite Hcell by lia. unfold reference_cell, in_acs.
      rewrite !Z2Nat.id by lia.
      replace (y1 - 1 + 1) with y1 by lia. replace (z1 - 1 + 1) with z1 by lia.
      rewrite !(proj2 (Z.leb_le _ _)); [done|lia..].
    - apply elem_of_row_major. simpl. lia. }
  assert (1 <= length (filter (sampled mask) (row_major ky_dim kz_dim)))%nat
    as Hlen.
  { destruct (filter _ _); [by apply elem_of_nil in Hin|simpl; lia]. }
  pose proof (length_sampled_row_major _ _ mask Hmask) as Hcount.
  rewrite !Z2Nat.id in Hcount by done.
  exists mask. eexists. split; [exact Hrun|]. split.
  - lia.
  - by rewrite length_fmap.
Qed.

(** C9. For every valid input the mask has at least one true cell and the
    sample list is not empty, so the summary of the script (the division
    [mask.size / count_nonzero(mask)] and the minimum and maximum over the
    samples) is computed without an exception, whichever integer type
    [np.count_nonzero] returns. *)
Theorem grappa3D_pattern_nonempty
    (size_of_kspace : Z * Z) (Ry Rz : Z) (ACSdim : Z * Z) :
  valid_input size_of_kspace Ry Rz ACSdim ->
  exists mask samples,
    grappa3D_pattern size_of_kspace Ry Rz ACSdim = Ok (mask, samples) /\
    1 <= count_nonzero mask /\
    (1 <= length samples)%nat /\
    forall t, succeeds (summarise t mask samples).
Proof.
  destruct size_of_kspace as [ky_dim kz_dim]. intros Hvalid.
  destruct (grappa3D_pattern_valid_nonempty _ _ _ _ _ Hvalid)
    as (mask & samples & Hrun & Hcount & Hlen).
  exists mask, samples. split_and!; [done..|].
  intros t. by apply summarise_succeeds.
Qed.

Lemma grappa3D_pattern_nonempty_witness :
  exists mask samples,
    grappa3D_pattern (6, 7) 3 2 (2, 3) = Ok (mask, samples) /\
    1 <= count_nonzero mask /\
    (1 <= length samples)%nat /\
    forall t, succeeds (summarise t mask samples).
Proof.
  apply (grappa3D_pattern_nonempty (6, 7) 3 2 (2, 3)).
  unfold valid_input. vm_compute. intuition discriminate.
Defined.

(** **** Claim C10 *)

(** C10. For every valid input every centred coordinate of the sample
    list lies in [-(dim // 2) .. dim - 1 - dim // 2] of its axis, and when
    both grid dimensions are at most 2^15 every coordinate fits a signed
    16-bit integer. *)
Theorem grappa3D_pattern_samples_bounded
    (size_of_kspace : Z * Z) (Ry Rz : Z) (ACSdim : Z * Z) :
  valid_input size_of_kspace Ry Rz ACSdim ->
  exists mask samples,
    grappa3D_pattern size_of_kspace Ry Rz ACSdim = Ok (mask, samples) /\
    Forall (fun s =>
              - (size_of_kspace.1 / 2) <= s.1
                <= size_of_kspace.1 - 1 - size_of_kspace.1 / 2 /\
              - (size_of_kspace.2 / 2) <= s.2
                <= size_of_kspace.2 - 1 - size_of_kspace.2 / 2) samples /\
    (size_of_kspace.1 <= 2 ^ 15 -> size_of_kspace.2 <= 2 ^ 15 ->
     Forall (fun s => - 2 ^ 15 <= s.1 <= 2 ^ 15 - 1 /\
                      - 2 ^ 15 <= s.2 <= 2 ^ 15 - 1) samples).
Proof.
  destruct size_of_kspace as [ky_dim kz_dim]. intros Hvalid.
  destruct (valid_input_nonzero _ _ _ _ _ Hvalid) as (Hky & Hkz & _).
  destruct (grappa3D_pattern_valid_run _ _ _ _ _ Hvalid)
    as (mask & Hrun & _).
  exists mask. eexists. split; [exact Hrun|]. simpl.
  assert (forall s,
            s ∈ centred ky_dim kz_dim <$>
                  filter (sampled mask) (row_major ky_dim kz_dim) ->
            - (ky_dim / 2) <= s.1 <= ky_dim - 1 - ky_dim / 2 /\
            - (kz_dim / 2) <= s.2 <= kz_dim - 1 - kz_dim / 2) as Hbound.
  { intros s (p & -> & [_ Hp%elem_of_row_major]%list_elem_of_filter)
             %list_elem_of_fmap.
    unfold centred. simpl. lia. }
  split.
  - apply Forall_forall. exact Hbound.
  - intros Hy Hz. apply Forall_forall. intros s Hs.
    destruct (Hbound s Hs) as [H1 H2].
    assert (0 <= ky_dim / 2 <= 2 ^ 14)
      by (split; [apply Z.div_pos|apply Z.div_le_upper_bound]; lia).
    assert (0 <= kz_dim / 2 <= 2 ^ 14)
      by (split; [apply Z.div_pos|apply Z.div_le_upper_bound]; lia).
    lia.
Qed.

Lemma grappa3D_pattern_samples_bounded_witness :
  exists mask samples,
    grappa3D_pattern (7, 4) 2 2 (3, 2) = Ok (mask, samples) /\
    Forall (fun s => - (7 / 2) <= s.1 <= 7 - 1 - 7 / 2 /\
                     - (4 / 2) <= s.2 <= 4 - 1 - 4 / 2) samples /\
    (7 <= 2 ^ 15 -> 4 <= 2 ^ 15 ->
     Forall (fun s => - 2 ^ 15 <= s.1 <= 2 ^ 15 - 1 /\
                      - 2 ^ 15 <= s.2 <= 2 ^ 15 - 1) samples).
Proof.
  apply (grappa3D_pattern_samples_bounded (7, 4) 2 2 (3, 2)).
  unfold valid_input. vm_compute. intuition discriminate.
Defined.

(** **** Claim C6 *)

(** C6, as the code has it.  The generator checks none of its
    preconditions: on every input that satisfies them it returns a mask and
    a sample list. *)
Theorem grappa3D_pattern_succeeds_on_valid
    (size_of_kspace : Z * Z) (Ry Rz : Z) (ACSdim : Z * Z) :
  valid_input size_of_kspace Ry Rz ACSdim ->
  exists mask samples,
    grappa3D_pattern size_of_kspace Ry Rz ACSdim = Ok (mask, samples).
Proof.
  destruct size_of_kspace as [ky_dim kz_dim]. intros Hvalid.
  destruct (valid_input_nonzero _ _ _ _ _ Hvalid) as (Hky & Hkz & HRy & HRz).
  destruct (grappa3D_pattern_total ky_dim kz_dim Ry Rz ACSdim Hky Hkz HRy HRz)
    as [[mask samples] Hrun].
  by exists mask, samples.
Qed.

Lemma grappa3D_pattern_succeeds_on_valid_witness :
  exists mask samples,
    grappa3D_pattern (128, 128) 2 2 (25, 25) = Ok (mask, samples).
Proof.
  apply (grappa3D_pattern_succeeds_on_valid (128, 128) 2 2 (25, 25)).
  unfold valid_input. vm_compute. intuition discriminate.
Defined.

(** C6 as stated fails: an ACS larger than the grid, with ACS bounds 0 and 8
    outside and on the edge of [1..8], is not rejected; the generator
    returns a mask with the single true cell (8, 8). *)
Lemma grappa3D_pattern_accepts_oversized_acs :
  ~ valid_input (8, 8) 2 2 (10, 10) /\
  acs_lo 8 10 = 0 /\
  grappa3D_pattern (8, 8) 2 2 (10, 10)
  = Ok (replicate 7 (replicate 8 false) ++ [replicate 7 false ++ [true]],
        [(3, 3)]).
Proof.
  split; [|split; vm_compute; reflexivity].
  unfold valid_input. vm_compute. intuition.
Qed.

(** **** Claim C8 *)

(** The generator on the store, against the generator on values. *)

Lemma lookup_middle (pre post : store) (o : object) :
  (pre ++ o :: post) !! length pre = Some o.
Proof. by apply list_lookup_middle. Qed.

Lemma insert_middle (pre post : store) (o o' : object) :
  <[length pre := o']> (pre ++ o :: post) = pre ++ o' :: post.
Proof. rewrite insert_app_r_alt by lia. by rewrite Nat.sub_diag. Qed.

(** A loop whose body works on the one object at [length pre] is the loop
    on that object's value; the rest of the store stays as it is. *)
Lemma for_each_at {S : Type} (wrap : S -> object) (pre post : store)
    (body : Z -> S -> result S) (body_store : Z -> store -> result store)
    (xs : list Z) (s : S) :
  (forall x s, body_store x (pre ++ wrap s :: post)
               = s' ← body x s; Ok (pre ++ wrap s' :: post)) ->
  for_each xs body_store (pre ++ wrap s :: post)
  = s' ← for_each xs body s; Ok (pre ++ wrap s' :: post).
Proof.
  intros Hbody. revert s. induction xs as [|x xs IH]; intros s; [done|].
  cbn [for_each]. rewrite Hbody.
  destruct (body x s) as [s1|e]; [|done]. by rewrite !bind_Ok_l, IH.
Qed.

Lemma lattice_step_store_at (Ry Rz y1 y2 z1 z2 kz ky : Z) (pre post : store)
    (m : ndarray) :
  lattice_step_store Ry Rz y1 y2 z1 z2 (length pre) kz ky
                     (pre ++ BoolArray m :: post)
  = m' ← lattice_step Ry Rz y1 y2 z1 z2 kz ky m;
    Ok (pre ++ BoolArray m' :: post).
Proof.
  unfold lattice_step_store, lattice_step.
  destruct ((z1 <=? kz) && (kz <=? z2) && ((y1 <=? ky) && (ky <=? y2)));
    [done|].
  destruct (py_mod (ky - y1) Ry) as [ry|e]; [|done].
  rewrite !bind_Ok_l. destruct (ry =? 0); [|done].
  destruct (py_mod (kz - z1) Rz) as [rz|e]; [|done].
  rewrite !bind_Ok_l. destruct (rz =? 0); [|done].
  unfold store_setitem, load_array. rewrite lookup_middle, bind_Ok_l.
  destruct (setitem m (ky - 1) (kz - 1) true) as [m'|e]; [|done].
  by rewrite !bind_Ok_l, insert_middle.
Qed.

Lemma extract_step_store_at (ky_dim kz_dim ky kz : Z) (mask : loc)
    (pre post : store) (m : ndarray) (ps : list (Z * Z)) :
  pre !! mask = Some (BoolArray m) ->
  extract_step_store ky_dim kz_dim mask (length pre) ky kz
                     (pre ++ PairList ps :: post)
  = ps' ← extract_step ky_dim kz_dim m ky kz ps;
    Ok (pre ++ PairList ps' :: post).
Proof.
  intros Hmask. unfold extract_step_store, extract_step, store_getitem.
  unfold load_array at 1.
  rewrite (lookup_app_l_Some _ _ _ _ Hmask), bind_Ok_l.
  destruct (getitem m ky kz) as [[|]|e]; [| |done].
  - rewrite !bind_Ok_l. unfold store_append, load_pairs.
    by rewrite lookup_middle, bind_Ok_l, insert_middle.
  - by rewrite !bind_Ok_l.
Qed.

(** The generator on the store does to the values what the generator on
    values does, raises when it raises, and touches the store only to add
    three objects at its end: the mask, the list of samples and the array
    made of it. *)
Lemma grappa3D_pattern_store_spec (σ : store) (size_of_kspace ACSdim : loc)
    (ky_dim kz_dim acs_y acs_z Ry Rz : Z) :
  σ !! size_of_kspace = Some (IntList [ky_dim; kz_dim]) ->
  σ !! ACSdim = Some (IntList [acs_y; acs_z]) ->
  grappa3D_pattern_store size_of_kspace Ry Rz ACSdim σ
  = '(mask, samples) ← grappa3D_pattern (ky_dim, kz_dim) Ry Rz (acs_y, acs_z);
    Ok ((length σ, S (S (length σ))),
        σ ++ [BoolArray mask; PairList samples; IntArray samples]).
Proof.
  intros Hsize Hacs.
  unfold grappa3D_pattern_store, grappa3D_pattern.
  unfold unpack2, load_ints. rewrite Hsize, !bind_Ok_l.
  unfold np_zeros. destruct (zeros ky_dim kz_dim) as [m0|e]; [|done].
  rewrite !bind_Ok_l. unfold alloc at 1. cbv beta iota.
  assert (forall i x, [acs_y; acs_z] !! i = Some x ->
            list_getitem (σ ++ [BoolArray m0]) ACSdim (Z.of_nat i) = Ok x)
    as Hget.
  { intros i x Hi. unfold list_getitem, load_ints.
    rewrite (lookup_app_l_Some _ _ _ _ Hacs), bind_Ok_l.
    apply lookup_lt_Some in Hi as Hlt. cbn [length] in *.
    rewrite index_adjust_in_range, bind_Ok_l by lia.
    rewrite Nat2Z.id. by apply item_Some. }
  pose proof (Hget 0%nat acs_y eq_refl) as Hget0.
  pose proof (Hget 1%nat acs_z eq_refl) as Hget1.
  change (Z.of_nat 0) with 0 in Hget0. change (Z.of_nat 1) with 1 in Hget1.
  rewrite Hget0, Hget1, !bind_Ok_l.
  cbn [fst snd].
  set (y1 := acs_lo ky_dim acs_y). set (y2 := acs_hi ky_dim acs_y).
  set (z1 := acs_lo kz_dim acs_z). set (z2 := acs_hi kz_dim acs_z).
  unfold store_setslice, load_array.
  rewrite lookup_middle, bind_Ok_l, insert_middle.
  set (m1 := setslice m0 (y1 - 1) y2 (z1 - 1) z2 true).
  rewrite bind_Ok_l.
  rewrite (for_each_at BoolArray σ []
             (fun kz => for_each (range 1 (ky_dim + 1))
                                 (lattice_step Ry Rz y1 y2 z1 z2 kz))).
  2:{ intros kz m. apply for_each_at. intros ky m'.
      apply lattice_step_store_at. }
  destruct (for_each (range 1 (kz_dim + 1)) _ m1) as [mask|e]; [|done].
  rewrite !bind_Ok_l. unfold alloc at 1. cbv beta iota.
  rewrite (for_each_at PairList (σ ++ [BoolArray mask]) []
             (fun ky => for_each (range 0 kz_dim)
                                 (extract_step ky_dim kz_dim mask ky))).
  2:{ intros ky ps. apply for_each_at. intros kz ps'.
      apply extract_step_store_at. apply lookup_middle. }
  destruct (for_each (range 0 ky_dim) _ []) as [samples|e]; [|done].
  rewrite !bind_Ok_l. unfold np_array, load_pairs.
  rewrite lookup_middle, !bind_Ok_l. unfold alloc.
  rewrite <- !app_assoc, !length_app. cbn [length app].
  do 3 f_equal. lia.
Qed.

(** C8. The generator is deterministic and free of side effects.  Two runs
    on argument lists that hold the same values, from any two stores
    (the second run may start from the store that the first one left),
    end the same way: both raise the same exception, or both return, and
    then every object that was in the store before a run is there unchanged
    after it (the argument lists among them), mask and samples are new
    objects, the two masks are equal cell by cell and the two sample arrays
    are equal entry by entry, in the same order. *)
Theorem grappa3D_pattern_two_runs
    (σ1 σ2 : store) (size1 acs1 size2 acs2 : loc)
    (ky_dim kz_dim acs_y acs_z Ry Rz : Z) :
  σ1 !! size1 = Some (IntList [ky_dim; kz_dim]) ->
  σ1 !! acs1 = Some (IntList [acs_y; acs_z]) ->
  σ2 !! size2 = Some (IntList [ky_dim; kz_dim]) ->
  σ2 !! acs2 = Some (IntList [acs_y; acs_z]) ->
  match grappa3D_pattern_store size1 Ry Rz acs1 σ1,
        grappa3D_pattern_store size2 Ry Rz acs2 σ2 with
  | Ok ((mask1, samples1), σ1'), Ok ((mask2, samples2), σ2') =>
      ((forall l o, σ1 !! l = Some o -> σ1' !! l = Some o) /\
       (forall l o, σ2 !! l = Some o -> σ2' !! l = Some o)) /\
      ((σ1 !! mask1 = None /\ σ1 !! samples1 = None) /\
       (σ2 !! mask2 = None /\ σ2 !! samples2 = None)) /\
      exists mask samples,
        (σ1' !! mask1 = Some (BoolArray mask) /\
         σ2' !! mask2 = Some (BoolArray mask)) /\
        (σ1' !! samples1 = Some (IntArray samples) /\
         σ2' !! samples2 = Some (IntArray samples)) /\
        (forall ky kz,
           store_getitem mask1 ky kz σ1' = getitem mask ky kz /\
           store_getitem mask2 ky kz σ2' = getitem mask ky kz) /\
        grappa3D_pattern (ky_dim, kz_dim) Ry Rz (acs_y, acs_z)
        = Ok (mask, samples)
  | Raise e1, Raise e2 => e1 = e2
  | _, _ => False
  end.
Proof.
  intros Hs1 Ha1 Hs2 Ha2.
  rewrite (grappa3D_pattern_store_spec σ1 _ _ _ _ _ _ Ry Rz Hs1 Ha1).
  rewrite (grappa3D_pattern_store_spec σ2 _ _ _ _ _ _ Ry Rz Hs2 Ha2).
  destruct (grappa3D_pattern (ky_dim, kz_dim) Ry Rz (acs_y, acs_z))
    as [[mask samples]|e]; [|done].
  rewrite !bind_Ok_l. cbv beta iota.
  assert (forall σ : store,
            (forall l o, σ !! l = Some o ->
               (σ ++ [BoolArray mask; PairList samples; IntArray samples]) !! l
               = Some o) /\
            (σ !! length σ = None /\ σ !! S (S (length σ)) = None) /\
            (σ ++ [BoolArray mask; PairList samples; IntArray samples])
              !! length σ = Some (BoolArray mask) /\
            (σ ++ [BoolArray mask; PairList samples; IntArray samples])
              !! S (S (length σ)) = Some (IntArray samples)) as Hstore.
  { intros σ. split_and!.
    - intros l o Hl. by apply lookup_app_l_Some.
    - by apply lookup_ge_None_2.
    - apply lookup_ge_None_2. lia.
    - apply lookup_middle.
    - rewrite lookup_app_r by lia.
      by replace (S (S (length σ)) - length σ)%nat with 2%nat by lia. }
  destruct (Hstore σ1) as (F1 & [N1 N1'] & M1 & A1).
  destruct (Hstore σ2) as (F2 & [N2 N2'] & M2 & A2).
  split_and!; try done.
  exists mask, samples. split_and!; try done.
  intros ky kz. unfold store_getitem, load_array.
  by rewrite !lookup_middle, !bind_Ok_l.
Qed.

Lemma grappa3D_pattern_two_runs_witness :
  match grappa3D_pattern_store 0%nat 2 2 1%nat
          [IntList [3; 3]; IntList [1; 1]],
        grappa3D_pattern_store 2%nat 2 2 1%nat
          [IntList [7]; IntList [1; 1]; IntList [3; 3]; PairList [(0, 0)]] with
  | Ok ((mask1, samples1), σ1'), Ok ((mask2, samples2), σ2') =>
      ((forall l o, [IntList [3; 3]; IntList [1; 1]] !! l = Some o
                    -> σ1' !! l = Some o) /\
       (forall l o,
          [IntList [7]; IntList [1; 1]; IntList [3; 3]; PairList [(0, 0)]] !! l
          = Some o -> σ2' !! l = Some o)) /\
      (([IntList [3; 3]; IntList [1; 1]] !! mask1 = None /\
        [IntList [3; 3]; IntList [1; 1]] !! samples1 = None) /\
       ([IntList [7]; IntList [1; 1]; IntList [3; 3]; PairList [(0, 0)]]
          !! mask2 = None /\
        [IntList [7]; IntList [1; 1]; IntList [3; 3]; PairList [(0, 0)]]
          !! samples2 = None)) /\
      exists mask samples,
        (σ1' !! mask1 = Some (BoolArray mask) /\
         σ2' !! mask2 = Some (BoolArray mask)) /\
        (σ1' !! samples1 = Some (IntArray samples) /\
         σ2' !! samples2 = Some (IntArray samples)) /\
        (forall ky kz,
           store_getitem mask1 ky kz σ1' = getitem mask ky kz /\
           store_getitem mask2 ky kz σ2' = getitem mask ky kz) /\
        grappa3D_pattern (3, 3) 2 2 (1, 1) = Ok (mask, samples)
  | Raise e1, Raise e2 => e1 = e2
  | _, _ => False
  end.
Proof.
  apply (grappa3D_pattern_two_runs
           [IntList [3; 3]; IntList [1; 1]]
           [IntList [7]; IntList [1; 1]; IntList [3; 3]; PairList [(0, 0)]]
           0%nat 1%nat 2%nat 1%nat 3 3 1 1 2 2);
    reflexivity.
Defined.

(** **** Claim C4 *)

(** C4, at its input.  [round] takes both ties 2.5 and 5.5 to the even
    neighbour, so the computed ACS bounds are 2 and 6, not 3 and 6: the
    fully sampled rectangle is [2..6] x [2..6] (5 x 5 for an ACS size of 4)
    and the lattice runs over the even rows and columns.  The mask is not
    the expected one: the 1-based cell (2, 2) is true, the cell (1, 1) is
    false, and 32 cells are sampled instead of 28. *)
Theorem grappa3D_pattern_8x8_acs4 :
  acs_lo 8 4 = 2 /\ acs_hi 8 4 = 6 /\
  exists mask samples,
    grappa3D_pattern (8, 8) 2 2 (4, 4) = Ok (mask, samples) /\
    mask =
      [[false; false; false; false; false; false; false; false];
       [false; true;  true;  true;  true;  true;  false; true ];
       [false; true;  true;  true;  true;  true;  false; false];
       [false; true;  true;  true;  true;  true;  false; true ];
       [false; true;  true;  true;  true;  true;  false; false];
       [false; true;  true;  true;  true;  true;  false; true ];
       [false; false; false; false; false; false; false; false];
       [false; true;  false; true;  false; true;  false; true ]] /\
    mask <> expected_mask_8x8 /\
    getitem mask 1 1 = Ok true /\
    getitem expected_mask_8x8 1 1 = Ok false /\
    getitem mask 0 0 = Ok false /\
    getitem expected_mask_8x8 0 0 = Ok true /\
    count_nonzero mask = 32 /\
    count_nonzero expected_mask_8x8 = 28.
Proof.
  split; [reflexivity|]. split; [reflexivity|].
  eexists _, _. split; [vm_compute; reflexivity|].
  split; [reflexivity|]. split; [|by vm_compute].
  vm_compute. discriminate.
Qed.

(** ** The 32-bit splitter *)

Lemma split32to16_spec (count : Z) :
  split32to16 count
  = Ok (if 2 ^ 15 <=? count mod 2 ^ 16 then count mod 2 ^ 16 - 2 ^ 16
        else count mod 2 ^ 16,
        (count / 2 ^ 16) mod 2 ^ 16).
Proof.
  unfold split32to16, py_int. rewrite bind_Ok_l.
  change 0xFFFF with (Z.ones 16).
  by rewrite !Z.land_ones, Z.shiftr_div_pow2 by lia.
Qed.

(** The two halves put together give the count modulo 2^32. *)
Lemma split32to16_decode (count : Z) :
  exists low16 high16,
    split32to16 count = Ok (low16, high16) /\
    - 2 ^ 15 <= low16 < 2 ^ 15 /\
    0 <= high16 < 2 ^ 16 /\
    high16 * 2 ^ 16 + low16 mod 2 ^ 16 = count mod 2 ^ 32.
Proof.
  eexists _, _. split; [apply split32to16_spec|].
  change (2 ^ 15) with 32768. change (2 ^ 16) with 65536.
  change (2 ^ 32) with 4294967296.
  destruct (Z.leb_spec 32768 (count mod 65536));
    Z.div_mod_to_equations; lia.
Qed.

(** **** Claim C3 *)

(** C3. For every count in [0 .. 2^32 - 1] the splitter returns a pair
    [(low16, high16)] with [high16 * 2^16 + (low16 mod 2^16) = count];
    1313 gives (1313, 0) and 40000 gives (-25536, 0). *)
Theorem split32to16_roundtrip (count : Z) :
  0 <= count <= 2 ^ 32 - 1 ->
  (exists low16 high16,
     split32to16 count = Ok (low16, high16) /\
     high16 * 2 ^ 16 + low16 mod 2 ^ 16 = count) /\
  split32to16 1313 = Ok (1313, 0) /\
  split32to16 40000 = Ok (-25536, 0).
Proof.
  intros Hcount. split; [|split; reflexivity].
  destruct (split32to16_decode count) as (low16 & high16 & Hsplit & _ & _ & Hdec).
  exists low16, high16. split; [done|].
  rewrite Hdec. apply Z.mod_small. lia.
Qed.

Lemma split32to16_roundtrip_witness :
  (exists low16 high16,
     split32to16 305419896 = Ok (low16, high16) /\
     high16 * 2 ^ 16 + low16 mod 2 ^ 16 = 305419896) /\
  split32to16 1313 = Ok (1313, 0) /\
  split32to16 40000 = Ok (-25536, 0).
Proof. apply (split32to16_roundtrip 305419896). lia. Defined.

(** **** Claim C7 *)

(** C7, as the code has it.  The splitter has no range check and never
    fails: for every integer count it returns a signed low half and an
    unsigned high half that encode the count modulo 2^32 (the count itself
    when it lies in [0 .. 2^32 - 1]). *)
Theorem split32to16_never_fails (count : Z) :
  exists low16 high16,
    split32to16 count = Ok (low16, high16) /\
    - 2 ^ 15 <= low16 < 2 ^ 15 /\
    0 <= high16 < 2 ^ 16 /\
    high16 * 2 ^ 16 + low16 mod 2 ^ 16 = count mod 2 ^ 32.
Proof. apply split32to16_decode. Qed.

(** C7 as stated fails: the count 2^32 is outside the 32-bit unsigned
    range, and it is encoded, as (0, 0), like the count 0. *)
Lemma split32to16_accepts_2_pow_32 :
  ~ (0 <= 2 ^ 32 <= 2 ^ 32 - 1) /\
  split32to16 (2 ^ 32) = Ok (0, 0) /\
  ~ fails (split32to16 (2 ^ 32)).
Proof.
  split; [lia|]. split; [reflexivity|].
  intros [e He]. discriminate He.
Qed.

(** ** The LUT export *)

Lemma append_cons (x : ascii) (a b : string) :
  String x a +:+ b = String x (a +:+ b).
Proof. reflexivity. Qed.

Lemma append_assoc (a b c : string) : (a +:+ b) +:+ c = a +:+ (b +:+ c).
Proof. induction a as [|x a IH]; [done|]. by rewrite !append_cons, IH. Qed.

Lemma append_empty_r (a : string) : a +:+ EmptyString = a.
Proof. induction a as [|x a IH]; [done|]. by rewrite append_cons, IH. Qed.

Lemma line_count_append (a b : string) :
  line_count (a +:+ b) = (line_count a + line_count b)%nat.
Proof.
  induction a as [|x a IH]; [done|].
  rewrite append_cons. cbn [line_count]. rewrite IH. lia.
Qed.

Lemma unlines_cons (l : string) (ls : list string) :
  unlines (l :: ls) = l +:+ newline +:+ unlines ls.
Proof. reflexivity. Qed.

Lemma unlines_app (ls1 ls2 : list string) :
  unlines (ls1 ++ ls2) = unlines ls1 +:+ unlines ls2.
Proof.
  induction ls1 as [|l ls1 IH]; [done|].
  rewrite <- app_comm_cons, !unlines_cons, IH.
  by rewrite !append_assoc.
Qed.

(** A decimal numeral has no newline in it. *)
Lemma line_count_str (n : Z) : line_count (str n) = 0%nat.
Proof.
  assert (forall d, line_count (NilEmpty.string_of_uint d) = 0%nat) as Hu.
  { induction d; simpl; done. }
  assert (forall d, line_count (NilZero.string_of_uint d) = 0%nat) as Hu0.
  { intros d. destruct d; try done; apply (Hu (_ d)). }
  unfold str, NilZero.string_of_int.
  destruct (Z.to_int n); simpl; by rewrite Hu0.
Qed.

Lemma line_count_unlines (ls : list string) :
  Forall (fun l => line_count l = 0%nat) ls ->
  line_count (unlines ls) = length ls.
Proof.
  induction 1 as [|l ls Hl _ IH]; [done|].
  rewrite unlines_cons, !line_count_append, Hl, IH. done.
Qed.

(** The sample loop of the export appends two lines per sample. *)
Lemma export_samples_spec (samples : list (Z * Z)) (f : string) :
  foldl (fun f sample =>
           let f := write f (str sample.1 +:+ newline) in
           write f (str sample.2 +:+ newline))
        f samples
  = f +:+ unlines (samples ≫= fun sample => [str sample.1; str sample.2]).
Proof.
  revert f. induction samples as [|s samples IH]; intros f.
  - simpl. by rewrite append_empty_r.
  - cbn [foldl]. rewrite IH, bind_cons, unlines_app, !unlines_cons.
    unfold write. cbn [fst snd unlines foldr].
    rewrite !append_assoc. reflexivity.
Qed.

Lemma length_lut_lines (l16 h16 : Z) (samples : list (Z * Z)) :
  length (lut_lines l16 h16 samples) = (2 + 2 * length samples)%nat.
Proof.
  assert (length (samples ≫= fun sample => [str sample.1; str sample.2])
          = (2 * length samples)%nat) as Hlen.
  { induction samples as [|s samples IH]; [done|].
    rewrite bind_cons, length_app, IH. cbn [length]. lia. }
  unfold lut_lines. cbn [length]. rewrite Hlen. lia.
Qed.

(** **** Claim C5 *)

(** C5. For every sample list, of length [count], the export succeeds and
    the text it writes is, in order, the line of [low16], the line of
    [high16], with [(low16, high16) = split32to16(count)], and then for each
    sample in list order the line of its [ky] and the line of its [kz]; each
    line is a decimal numeral followed by a newline, and the text has
    exactly [2 + 2 * count] lines. *)
Theorem export_lut_lines (samples : list (Z * Z)) :
  exists low16 high16 text,
    split32to16 (Z.of_nat (length samples)) = Ok (low16, high16) /\
    export_lut (Z.of_nat (length samples)) samples = Ok text /\
    text = unlines (str low16 :: str high16 ::
                    (samples ≫= fun sample => [str sample.1; str sample.2])) /\
    Forall (fun line => line_count line = 0%nat)
           (lut_lines low16 high16 samples) /\
    length (lut_lines low16 high16 samples) = (2 + 2 * length samples)%nat /\
    line_count text = (2 + 2 * length samples)%nat.
Proof.
  destruct (split32to16_decode (Z.of_nat (length samples)))
    as (low16 & high16 & Hsplit & _).
  exists low16, high16. eexists. split; [done|].
  assert (Forall (fun line => line_count line = 0%nat)
                 (lut_lines low16 high16 samples)) as Hlines.
  { unfold lut_lines. repeat (constructor; [apply line_count_str|]).
    apply Forall_forall.
    intros l (s & [->| ->%list_elem_of_singleton]%elem_of_cons & _)
             %list_elem_of_bind;
      apply line_count_str. }
  assert (EmptyString +:+ unlines (lut_lines low16 high16 samples)
          = write (write EmptyString (str low16 +:+ newline))
                  (str high16 +:+ newline)
            +:+ unlines (samples ≫= fun sample => [str sample.1; str sample.2]))
    as Htext.
  { unfold write, lut_lines. rewrite !unlines_cons.
    by rewrite !append_assoc. }
  split_and!.
  - unfold export_lut. rewrite Hsplit, bind_Ok_l.
    rewrite export_samples_spec, <- Htext. reflexivity.
  - reflexivity.
  - done.
  - apply length_lut_lines.
  - change (line_count (unlines (lut_lines low16 high16 samples))
            = (2 + 2 * length samples)%nat).
    by rewrite line_count_unlines, length_lut_lines.
Qed.

(** ** The script *)

Lemma export_lut_succeeds (ne : Z) (samples : list (Z * Z)) :
  succeeds (export_lut ne samples).
Proof.
  unfold export_lut.
  destruct (split32to16_decode ne) as (low16 & high16 & -> & _).
  rewrite bind_Ok_l. by eexists.
Qed.

(** On valid input the whole script, from the generator call to the text of
    the LUT file, runs without an exception. *)
Lemma run_succeeds (t : count_type) (size_of_kspace acs_size : Z * Z)
    (Ry Rz : Z) :
  valid_input size_of_kspace Ry Rz acs_size ->
  succeeds (run t size_of_kspace acs_size Ry Rz).
Proof.
  destruct size_of_kspace as [ky_dim kz_dim]. intros Hvalid.
  destruct (grappa3D_pattern_valid_nonempty _ _ _ _ _ Hvalid)
    as (mask & samples & Hrun & Hcount & Hlen).
  destruct (summarise_succeeds t mask samples Hcount Hlen) as [s Hs].
  destruct (export_lut_succeeds (NE s) samples) as [f Hf].
  unfold run. rewrite Hrun, bind_Ok_l. cbv beta iota.
  rewrite Hs, bind_Ok_l, Hf, bind_Ok_l. by eexists.
Qed.

(** * Further properties of the script *)

(** ** A zero factor *)

(** A loop whose body either raises or leaves the state alone. *)
Lemma for_each_guard {S : Type} (t : Z -> bool) (e : exn)
    (body : Z -> S -> result S) (xs : list Z) (s : S) :
  (forall x s, body x s = if t x then Raise e else Ok s) ->
  for_each xs body s = if existsb t xs then Raise e else Ok s.
Proof.
  intros Hbody. induction xs as [|x xs IH]; [done|].
  cbn [for_each existsb]. rewrite Hbody.
  destruct (t x); [done|]. by rewrite bind_Ok_l, IH.
Qed.

Lemma for_each_ext {S : Type} (body1 body2 : Z -> S -> result S)
    (xs : list Z) (s : S) :
  (forall x s, body1 x s = body2 x s) ->
  for_each xs body1 s = for_each xs body2 s.
Proof.
  intros Hext. revert s. induction xs as [|x xs IH]; intros s; [done|].
  cbn [for_each]. rewrite Hext. destruct (body2 x s); [|done].
  by rewrite !bind_Ok_l, IH.
Qed.

(** With a zero factor no cell is ever switched on by the lattice loop: a
    visit either divides by zero or changes nothing. *)
Lemma lattice_step_zero (Ry Rz y1 y2 z1 z2 kz ky : Z) (m : ndarray) :
  Ry = 0 \/ Rz = 0 ->
  lattice_step Ry Rz y1 y2 z1 z2 kz ky m
  = if divides_by_zero Ry Rz y1 y2 z1 z2 ky kz
    then Raise ZeroDivisionError else Ok m.
Proof.
  intros Hzero. unfold lattice_step, divides_by_zero.
  rewrite in_acs_test.
  destruct (in_acs y1 y2 z1 z2 ky kz); [done|]. cbn [negb andb].
  destruct (Z.eqb_spec Ry 0) as [->|HRy]; [done|].
  rewrite (py_mod_nonzero (ky - y1) Ry HRy), bind_Ok_l. cbv beta. cbn [orb].
  destruct ((ky - y1) mod Ry =? 0); [|done]. cbn [andb].
  destruct (Z.eqb_spec Rz 0) as [->|HRz]; [done|].
  lia.
Qed.

Lemma lattice_loops_zero (ky_dim kz_dim Ry Rz y1 y2 z1 z2 : Z) (m : ndarray) :
  Ry = 0 \/ Rz = 0 ->
  for_each (range 1 (kz_dim + 1)) (fun kz =>
    for_each (range 1 (ky_dim + 1)) (lattice_step Ry Rz y1 y2 z1 z2 kz)) m
  = if existsb (fun kz =>
                  existsb (fun ky => divides_by_zero Ry Rz y1 y2 z1 z2 ky kz)
                          (range 1 (ky_dim + 1)))
               (range 1 (kz_dim + 1))
    then Raise ZeroDivisionError else Ok m.
Proof.
  intros Hzero. apply for_each_guard. intros kz m'.
  apply for_each_guard. intros ky m''. by apply lattice_step_zero.
Qed.

Lemma existsb_grid (t : Z -> Z -> bool) (ky_dim kz_dim : Z) :
  existsb (fun kz => existsb (fun ky => t ky kz) (range 1 (ky_dim + 1)))
          (range 1 (kz_dim + 1)) = true
  <-> exists ky kz, 1 <= ky <= ky_dim /\ 1 <= kz <= kz_dim /\ t ky kz = true.
Proof.
  rewrite existsb_exists. split.
  - intros (kz & Hkz%list_elem_of_In%elem_of_range & Hex).
    apply existsb_exists in Hex
      as (ky & Hky%list_elem_of_In%elem_of_range & Ht).
    exists ky, kz. split_and!; [lia..|done].
  - intros (ky & kz & Hky & Hkz & Ht). exists kz. split.
    + apply list_elem_of_In, elem_of_range. lia.
    + apply existsb_exists. exists ky. split; [|done].
      apply list_elem_of_In, elem_of_range. lia.
Qed.

Lemma divides_by_zero_nonzero (Ry Rz y1 y2 z1 z2 ky kz : Z) :
  Ry <> 0 -> Rz <> 0 -> divides_by_zero Ry Rz y1 y2 z1 z2 ky kz = false.
Proof.
  intros HRy HRz. unfold divides_by_zero.
  destruct (Z.eqb_spec Ry 0), (Z.eqb_spec Rz 0); try done.
  cbn [orb]. by rewrite andb_false_r, andb_false_r.
Qed.

(** The generator with a zero factor, on a grid of [ny] x [nz] cells: it
    raises when some visit divides by zero and otherwise returns the mask of
    the ACS slice alone. *)
Lemma grappa3D_pattern_zero_nat (ny nz : nat) (Ry Rz : Z) (ACSdim : Z * Z) :
  Ry = 0 \/ Rz = 0 ->
  let ky_dim := Z.of_nat ny in
  let kz_dim := Z.of_nat nz in
  let y1 := acs_lo ky_dim ACSdim.1 in
  let y2 := acs_hi ky_dim ACSdim.1 in
  let z1 := acs_lo kz_dim ACSdim.2 in
  let z2 := acs_hi kz_dim ACSdim.2 in
  let mask := setslice (replicate ny (replicate nz false))
                       (y1 - 1) y2 (z1 - 1) z2 true in
  shaped ny nz mask /\
  grappa3D_pattern (ky_dim, kz_dim) Ry Rz ACSdim
  = if existsb (fun kz =>
                  existsb (fun ky => divides_by_zero Ry Rz y1 y2 z1 z2 ky kz)
                          (range 1 (ky_dim + 1)))
               (range 1 (kz_dim + 1))
    then Raise ZeroDivisionError
    else Ok (mask, centred ky_dim kz_dim <$>
                     filter (sampled mask) (row_major ky_dim kz_dim)).
Proof.
  intros Hzero ky_dim kz_dim y1 y2 z1 z2 mask.
  destruct (zeros_shaped ny nz) as [Hzeros Hz0].
  assert (shaped ny nz mask) as Hmask by by apply setslice_shaped.
  split; [done|].
  unfold grappa3D_pattern. fold ky_dim kz_dim in Hzeros.
  rewrite Hzeros, bind_Ok_l.
  fold y1 y2 z1 z2. fold mask.
  rewrite (lattice_loops_zero ky_dim kz_dim Ry Rz y1 y2 z1 z2 mask Hzero).
  destruct (existsb _ _); [done|]. rewrite bind_Ok_l.
  unfold ky_dim, kz_dim.
  by rewrite (extract_loops_spec ny nz mask _ _ Hmask), bind_Ok_l.
Qed.

Lemma grappa3D_pattern_zero (ky_dim kz_dim Ry Rz : Z) (ACSdim : Z * Z) :
  0 <= ky_dim -> 0 <= kz_dim -> Ry = 0 \/ Rz = 0 ->
  let y1 := acs_lo ky_dim ACSdim.1 in
  let y2 := acs_hi ky_dim ACSdim.1 in
  let z1 := acs_lo kz_dim ACSdim.2 in
  let z2 := acs_hi kz_dim ACSdim.2 in
  let mask := setslice (replicate (Z.to_nat ky_dim)
                                  (replicate (Z.to_nat kz_dim) false))
                       (y1 - 1) y2 (z1 - 1) z2 true in
  shaped (Z.to_nat ky_dim) (Z.to_nat kz_dim) mask /\
  grappa3D_pattern (ky_dim, kz_dim) Ry Rz ACSdim
  = if existsb (fun kz =>
                  existsb (fun ky => divides_by_zero Ry Rz y1 y2 z1 z2 ky kz)
                          (range 1 (ky_dim + 1)))
               (range 1 (kz_dim + 1))
    then Raise ZeroDivisionError
    else Ok (mask, centred ky_dim kz_dim <$>
                     filter (sampled mask) (row_major ky_dim kz_dim)).
Proof.
  intros Hky Hkz Hzero.
  pose proof (grappa3D_pattern_zero_nat (Z.to_nat ky_dim) (Z.to_nat kz_dim)
                Ry Rz ACSdim Hzero) as H.
  rewrite !Z2Nat.id in H by done. exact H.
Qed.

(** Whatever the input, a mask that the generator returns has the shape of
    the grid, and the samples returned with it are its row-major scan. *)
Lemma grappa3D_pattern_Ok_inv (ky_dim kz_dim Ry Rz : Z) (ACSdim : Z * Z)
    (mask : ndarray) (samples : list (Z * Z)) :
  grappa3D_pattern (ky_dim, kz_dim) Ry Rz ACSdim = Ok (mask, samples) ->
  (0 <= ky_dim /\ 0 <= kz_dim) /\
  shaped (Z.to_nat ky_dim) (Z.to_nat kz_dim) mask /\
  samples = centred ky_dim kz_dim <$>
              filter (sampled mask) (row_major ky_dim kz_dim).
Proof.
  intros Hrun.
  assert (0 <= ky_dim /\ 0 <= kz_dim) as [Hky Hkz].
  { destruct (Z.le_gt_cases 0 ky_dim), (Z.le_gt_cases 0 kz_dim); try done;
      rewrite grappa3D_pattern_negative_grid in Hrun by lia; done. }
  split; [done|].
  destruct (decide (Ry = 0 \/ Rz = 0)) as [Hzero|Hnz].
  - destruct (grappa3D_pattern_zero ky_dim kz_dim Ry Rz ACSdim Hky Hkz Hzero)
      as [Hshape Heq].
    rewrite Heq in Hrun. destruct (existsb _ _); [done|].
    by injection Hrun as <- <-.
  - destruct (grappa3D_pattern_run ky_dim kz_dim Ry Rz ACSdim Hky Hkz)
      as (mask' & Heq & Hshape & _); [tauto..|].
    rewrite Heq in Hrun. by injection Hrun as <- <-.
Qed.

(** **** Extra X1: when the generator raises *)

(** X1. For grid dimensions that NumPy takes and ACS sizes on which the
    floats of the bounds are exact (and memory permitting), the generator
    raises exactly in two cases: [ValueError] when a grid dimension is
    negative, and [ZeroDivisionError] when, on a grid without negative
    dimension, some cell off the ACS rectangle meets a zero divisor ([Ry]
    is zero, or its first residue is zero and [Rz] is zero).  In particular
    it never raises [IndexError]. *)
Theorem grappa3D_pattern_raises
    (ky_dim kz_dim Ry Rz : Z) (ACSdim : Z * Z) (e : exn) :
  int32 ky_dim -> int32 kz_dim ->
  float_exact ACSdim.1 -> float_exact ACSdim.2 ->
  grappa3D_pattern (ky_dim, kz_dim) Ry Rz ACSdim = Raise e <->
  (e = ValueError /\ (ky_dim < 0 \/ kz_dim < 0)) \/
  (e = ZeroDivisionError /\ 0 <= ky_dim /\ 0 <= kz_dim /\
   exists ky kz, 1 <= ky <= ky_dim /\ 1 <= kz <= kz_dim /\
     divides_by_zero Ry Rz
       (acs_lo ky_dim ACSdim.1) (acs_hi ky_dim ACSdim.1)
       (acs_lo kz_dim ACSdim.2) (acs_hi kz_dim ACSdim.2) ky kz = true).
Proof.
  intros _ _ _ _.
  destruct (decide (ky_dim < 0 \/ kz_dim < 0)) as [Hneg|Hpos].
  { rewrite grappa3D_pattern_negative_grid by done. split.
    - intros [= <-]. by left.
    - intros [[-> _]|(_ & ? & ? & _)]; [done|lia]. }
  assert (0 <= ky_dim /\ 0 <= kz_dim) as [Hky Hkz] by lia.
  destruct (decide (Ry = 0 \/ Rz = 0)) as [Hzero|Hnz].
  - destruct (grappa3D_pattern_zero ky_dim kz_dim Ry Rz ACSdim Hky Hkz Hzero)
      as [_ ->].
    destruct (existsb _ _) eqn:Hex.
    + apply existsb_grid in Hex. split.
      * intros [= <-]. right. by split_and!.
      * intros [[_ ?]|[-> _]]; [lia|done].
    + split; [done|]. intros [[_ ?]|(_ & _ & _ & Hcell)]; [lia|].
      apply existsb_grid in Hcell. congruence.
  - destruct (grappa3D_pattern_total ky_dim kz_dim Ry Rz ACSdim Hky Hkz)
      as [r ->]; [tauto..|].
    split; [done|].
    intros [[_ ?]|(_ & _ & _ & ky & kz & _ & _ & Hcell)]; [lia|].
    rewrite divides_by_zero_nonzero in Hcell by tauto. done.
Qed.

Lemma grappa3D_pattern_raises_witness :
  grappa3D_pattern (8, 8) 2 0 (4, 4) = Raise ZeroDivisionError <->
  (ZeroDivisionError = ValueError /\ (8 < 0 \/ 8 < 0)) \/
  (ZeroDivisionError = ZeroDivisionError /\ 0 <= 8 /\ 0 <= 8 /\
   exists ky kz, 1 <= ky <= 8 /\ 1 <= kz <= 8 /\
     divides_by_zero 2 0 (acs_lo 8 4) (acs_hi 8 4) (acs_lo 8 4) (acs_hi 8 4)
                     ky kz = true).
Proof.
  apply (grappa3D_pattern_raises 8 8 2 0 (4, 4) ZeroDivisionError);
    unfold int32, float_exact; simpl; lia.
Defined.

(** **** Extra X2: what a returned mask and sample list look like *)

Lemma size_shaped (ny nz : nat) (m : ndarray) :
  shaped ny nz m -> size m = Z.of_nat ny * Z.of_nat nz.
Proof.
  intros [<- Hrows]. unfold size.
  induction Hrows as [|row m Hrow _ IH]; [done|].
  cbn [sum_list_with length]. rewrite Hrow. lia.
Qed.

Lemma count_nonzero_le_size (m : ndarray) : count_nonzero m <= size m.
Proof.
  unfold count_nonzero, size. apply inj_le.
  induction m as [|row m IH]; [done|].
  cbn [sum_list_with]. pose proof (length_filter (fun b => b = true) row).
  unfold count_true at 1. lia.
Qed.

Lemma lex_lt_NoDup (l : list (Z * Z)) : StronglySorted lex_lt l -> NoDup l.
Proof.
  induction 1 as [|p l _ IH Hp]; constructor; [|done].
  intros Hin. apply (proj1 (Forall_forall _ _) Hp) in Hin.
  unfold lex_lt in Hin. lia.
Qed.

Lemma centred_inj (ky_dim kz_dim : Z) : Inj (=) (=) (centred ky_dim kz_dim).
Proof.
  intros [a b] [c d]. unfold centred. simpl. intros [= H1 H2].
  f_equal; lia.
Qed.

(** X2. Whatever the input (valid or not), when the generator returns a
    mask and a sample list, the mask has [ky_dim] rows of [kz_dim] cells
    ([mask.size = ky_dim * kz_dim]), the sample list is the centred
    row-major scan of the true cells, strictly increasing, and its length is
    [count_nonzero(mask)], at most [ky_dim * kz_dim]. *)
Theorem grappa3D_pattern_returns_scan
    (ky_dim kz_dim Ry Rz : Z) (ACSdim : Z * Z)
    (mask : ndarray) (samples : list (Z * Z)) :
  grappa3D_pattern (ky_dim, kz_dim) Ry Rz ACSdim = Ok (mask, samples) ->
  Z.of_nat (length mask) = ky_dim /\
  Forall (fun row => Z.of_nat (length row) = kz_dim) mask /\
  size mask = ky_dim * kz_dim /\
  samples
  = (fun p => (p.1 - ky_dim / 2, p.2 - kz_dim / 2))
      <$> filter (fun p => getitem mask p.1 p.2 = Ok true)
                 (row_major ky_dim kz_dim) /\
  StronglySorted lex_lt samples /\
  Z.of_nat (length samples) = count_nonzero mask /\
  count_nonzero mask <= ky_dim * kz_dim.
Proof.
  intros Hrun.
  destruct (grappa3D_pattern_Ok_inv _ _ _ _ _ _ _ Hrun)
    as ([Hky Hkz] & Hmask & ->).
  pose proof (size_shaped _ _ mask Hmask) as Hsize.
  rewrite !Z2Nat.id in Hsize by done.
  pose proof (length_sampled_row_major _ _ mask Hmask) as Hcount.
  rewrite !Z2Nat.id in Hcount by done.
  pose proof (count_nonzero_le_size mask).
  destruct Hmask as [Hlen Hrows]. split_and!.
  - lia.
  - apply (Forall_impl _ _ _ Hrows). intros row ->. lia.
  - done.
  - done.
  - apply (StronglySorted_fmap _ lex_lt); [apply centred_lex_lt|].
    apply StronglySorted_filter, row_major_sorted.
  - by rewrite length_fmap.
  - lia.
Qed.

Lemma grappa3D_pattern_returns_scan_witness :
  Z.of_nat (length (replicate 7 (replicate 8 false)
                    ++ [replicate 7 false ++ [true]])) = 8 /\
  Forall (fun row => Z.of_nat (length row) = 8)
         (replicate 7 (replicate 8 false) ++ [replicate 7 false ++ [true]]) /\
  size (replicate 7 (replicate 8 false) ++ [replicate 7 false ++ [true]])
  = 8 * 8 /\
  [(3, 3)]
  = (fun p => (p.1 - 8 / 2, p.2 - 8 / 2))
      <$> filter (fun p =>
                    getitem (replicate 7 (replicate 8 false)
                             ++ [replicate 7 false ++ [true]]) p.1 p.2
                    = Ok true)
                 (row_major 8 8) /\
  StronglySorted lex_lt [(3, 3)] /\
  Z.of_nat (length [(3, 3)])
  = count_nonzero (replicate 7 (replicate 8 false)
                   ++ [replicate 7 false ++ [true]]) /\
  count_nonzero (replicate 7 (replicate 8 false)
                 ++ [replicate 7 false ++ [true]]) <= 8 * 8.
Proof.
  apply (grappa3D_pattern_returns_scan 8 8 2 2 (10, 10)).
  vm_compute. reflexivity.
Defined.

(** **** Extra X3: the samples give the mask back *)

(** X3. When the generator returns, the sample list has no repeated entry
    and decides the mask: the cell at a 0-based index [(ky, kz)] of the grid
    is true iff its centred pair is in the list. *)
Theorem grappa3D_pattern_samples_decide_mask
    (ky_dim kz_dim Ry Rz : Z) (ACSdim : Z * Z)
    (mask : ndarray) (samples : list (Z * Z)) :
  grappa3D_pattern (ky_dim, kz_dim) Ry Rz ACSdim = Ok (mask, samples) ->
  NoDup samples /\
  forall ky kz, 0 <= ky < ky_dim -> 0 <= kz < kz_dim ->
    (getitem mask ky kz = Ok true
     <-> (ky - ky_dim / 2, kz - kz_dim / 2) ∈ samples) /\
    (getitem mask ky kz = Ok false
     <-> (ky - ky_dim / 2, kz - kz_dim / 2) ∉ samples).
Proof.
  intros Hrun.
  destruct (grappa3D_pattern_Ok_inv _ _ _ _ _ _ _ Hrun)
    as ([Hky Hkz] & Hmask & ->).
  split.
  - apply lex_lt_NoDup, (StronglySorted_fmap _ lex_lt); [apply centred_lex_lt|].
    apply StronglySorted_filter, row_major_sorted.
  - intros ky kz Hy Hz.
    assert (centred ky_dim kz_dim (ky, kz)
              ∈ centred ky_dim kz_dim <$>
                  filter (sampled mask) (row_major ky_dim kz_dim)
            <-> getitem mask ky kz = Ok true) as Hin.
    { rewrite (list_elem_of_fmap_inj _ (Inj0 := centred_inj ky_dim kz_dim)).
      rewrite list_elem_of_filter, elem_of_row_major. unfold sampled. simpl.
      tauto. }
    change (ky - ky_dim / 2, kz - kz_dim / 2)
      with (centred ky_dim kz_dim (ky, kz)).
    rewrite Hin. split; [done|].
    rewrite (getitem_cell _ _ mask ky kz Hmask) by (rewrite Z2Nat.id; lia).
    destruct (cell mask _ _); split; congruence.
Qed.

Lemma grappa3D_pattern_samples_decide_mask_witness :
  NoDup [(0, 0)] /\
  forall ky kz, 0 <= ky < 3 -> 0 <= kz < 3 ->
    (getitem [[false; false; false]; [false; true; false]; [false; false; false]]
             ky kz = Ok true
     <-> (ky - 3 / 2, kz - 3 / 2) ∈ [(0, 0)]) /\
    (getitem [[false; false; false]; [false; true; false]; [false; false; false]]
             ky kz = Ok false
     <-> (ky - 3 / 2, kz - 3 / 2) ∉ [(0, 0)]).
Proof.
  apply (grappa3D_pattern_samples_decide_mask 3 3 2 2 (1, 1)).
  vm_compute. reflexivity.
Defined.

(** **** Extra X4: the sign of a factor *)

Lemma mod_opp_eqb_0 (a b : Z) : (a mod - b =? 0) = (a mod b =? 0).
Proof.
  destruct (Z.eq_dec b 0) as [->|Hb]; [done|].
  apply eq_true_iff_eq. rewrite !Z.eqb_eq.
  rewrite !Z.mod_divide by lia. by rewrite Z.divide_opp_l.
Qed.

Lemma lattice_step_opp (Ry Rz y1 y2 z1 z2 kz ky : Z) (m : ndarray) :
  lattice_step (- Ry) Rz y1 y2 z1 z2 kz ky m
  = lattice_step Ry Rz y1 y2 z1 z2 kz ky m /\
  lattice_step Ry (- Rz) y1 y2 z1 z2 kz ky m
  = lattice_step Ry Rz y1 y2 z1 z2 kz ky m.
Proof.
  unfold lattice_step.
  destruct ((z1 <=? kz) && (kz <=? z2) && ((y1 <=? ky) && (ky <=? y2)));
    [done|].
  split.
  - destruct (Z.eq_dec Ry 0) as [->|HRy]; [done|].
    rewrite (py_mod_nonzero (ky - y1) (- Ry)), (py_mod_nonzero (ky - y1) Ry)
      by lia.
    by rewrite !bind_Ok_l, mod_opp_eqb_0.
  - destruct (py_mod (ky - y1) Ry) as [ry|e]; [|done].
    rewrite !bind_Ok_l. destruct (ry =? 0); [|done].
    destruct (Z.eq_dec Rz 0) as [->|HRz]; [done|].
    rewrite (py_mod_nonzero (kz - z1) (- Rz)), (py_mod_nonzero (kz - z1) Rz)
      by lia.
    by rewrite !bind_Ok_l, mod_opp_eqb_0.
Qed.

Lemma grappa3D_pattern_opp (size_of_kspace : Z * Z) (Ry Rz : Z) (ACSdim : Z * Z) :
  grappa3D_pattern size_of_kspace (- Ry) Rz ACSdim
  = grappa3D_pattern size_of_kspace Ry Rz ACSdim /\
  grappa3D_pattern size_of_kspace Ry (- Rz) ACSdim
  = grappa3D_pattern size_of_kspace Ry Rz ACSdim.
Proof.
  destruct size_of_kspace as [ky_dim kz_dim]. unfold grappa3D_pattern.
  destruct (zeros ky_dim kz_dim) as [m0|e]; [|done].
  rewrite !bind_Ok_l. split.
  - erewrite for_each_ext; [reflexivity|]. intros kz m. cbv beta.
    apply for_each_ext. intros ky m'. apply lattice_step_opp.
  - erewrite for_each_ext; [reflexivity|]. intros kz m. cbv beta.
    apply for_each_ext. intros ky m'. apply lattice_step_opp.
Qed.

(** X4. Negative factors are not rejected and act as their absolute value:
    the generator does on [(Ry, Rz)] exactly what it does on
    [(|Ry|, |Rz|)], the same mask and samples or the same exception. *)
Theorem grappa3D_pattern_factor_sign
    (size_of_kspace : Z * Z) (Ry Rz : Z) (ACSdim : Z * Z) :
  grappa3D_pattern size_of_kspace Ry Rz ACSdim
  = grappa3D_pattern size_of_kspace (Z.abs Ry) (Z.abs Rz) ACSdim.
Proof.
  destruct (Z.abs_eq_or_opp Ry) as [->| ->], (Z.abs_eq_or_opp Rz) as [->| ->].
  - done.
  - by rewrite (proj2 (grappa3D_pattern_opp _ _ _ _)).
  - by rewrite (proj1 (grappa3D_pattern_opp _ _ _ _)).
  - rewrite (proj1 (grappa3D_pattern_opp _ _ _ _)).
    by rewrite (proj2 (grappa3D_pattern_opp _ _ _ _)).
Qed.

(** **** Extra X5: the ACS interval along one axis *)

Lemma round_even (k : Z) : round (Half (2 * k)) = k.
Proof.
  unfold round. simpl twice. rewrite Z.even_mul. cbn [Z.even orb].
  symmetry. apply Z.div_unique_exact; lia.
Qed.

Lemma round_odd (k : Z) :
  round (Half (2 * k + 1)) = if Z.even k then k else k + 1.
Proof.
  unfold round. simpl twice.
  rewrite Z.even_add, Z.even_mul. cbn [Z.even orb Bool.eqb].
  replace ((2 * k + 1) / 2) with k
    by (apply (Z.div_unique (2 * k + 1) 2 k 1); lia).
  done.
Qed.

Lemma parity_cases (n : Z) :
  (Z.even n = true /\ exists k, n = 2 * k) \/
  (Z.even n = false /\ exists k, n = 2 * k + 1).
Proof.
  destruct (Z.even n) eqn:E.
  - left. split; [done|]. by apply Z.even_spec.
  - right. split; [done|]. apply Z.odd_spec. by rewrite <- Z.negb_even, E.
Qed.

(** Within [float_exact] every float of the bounds is an exact half: twice
    its value is an integer below 2^53 in absolute value, which binary64
    represents, so the exact halves of the model are the floats of the
    code. *)
Lemma acs_floats_exact (dim acs : Z) :
  float_exact dim -> float_exact acs ->
  let c := truediv2 (dim + 1) in
  Forall (fun x : half => - 2 ^ 53 < twice x < 2 ^ 53)
    [c; truediv2 acs; hsub c (truediv2 acs); hadd c (truediv2 acs);
     hsub (hadd c (truediv2 acs)) (half_of_int 1)].
Proof.
  unfold float_exact. intros Hdim Hacs. cbn zeta.
  repeat constructor; simpl twice; lia.
Qed.

(** X5. For a grid dimension and an ACS size on which the floats of the
    bounds are exact (up to 2^51 in absolute value), the ACS interval
    [y1..y2] has [acs] cells, except when the grid dimension and the ACS
    size are both even: then both bounds are ties of [round], and the
    interval has [acs + 1] cells when [(dim - acs) / 2] is even and
    [acs - 1] cells when it is odd. *)
Theorem acs_interval_width (dim acs : Z) :
  float_exact dim -> float_exact acs ->
  acs_hi dim acs - acs_lo dim acs + 1
  = if Z.even dim && Z.even acs
    then (if Z.even ((dim - acs) / 2) then acs + 1 else acs - 1)
    else acs.
Proof.
  intros _ _.
  unfold acs_lo, acs_hi, hsub, hadd, truediv2, half_of_int. simpl twice.
  destruct (parity_cases dim) as [[-> [d ->]]|[-> [d ->]]],
           (parity_cases acs) as [[-> [a ->]]|[-> [a ->]]];
    cbn [andb].
  - replace ((2 * d - 2 * a) / 2) with (d - a)
      by (apply Z.div_unique_exact; lia).
    replace (2 * d + 1 - 2 * a) with (2 * (d - a) + 1) by lia.
    replace (2 * d + 1 + 2 * a - 2 * 1) with (2 * (d + a - 1) + 1) by lia.
    rewrite !round_odd.
    replace (d + a - 1) with (d - a + (2 * a - 1)) by lia.
    rewrite (Z.even_add (d - a)), (Z.even_sub (2 * a) 1), Z.even_mul.
    cbn [Z.even orb Bool.eqb]. destruct (Z.even (d - a)); cbn [Bool.eqb]; lia.
  - replace (2 * d + 1 - (2 * a + 1)) with (2 * (d - a)) by lia.
    replace (2 * d + 1 + (2 * a + 1) - 2 * 1) with (2 * (d + a)) by lia.
    rewrite !round_even. lia.
  - replace (2 * d + 1 + 1 - 2 * a) with (2 * (d - a + 1)) by lia.
    replace (2 * d + 1 + 1 + 2 * a - 2 * 1) with (2 * (d + a)) by lia.
    rewrite !round_even. lia.
  - replace (2 * d + 1 + 1 - (2 * a + 1)) with (2 * (d - a) + 1) by lia.
    replace (2 * d + 1 + 1 + (2 * a + 1) - 2 * 1) with (2 * (d + a) + 1) by lia.
    rewrite !round_odd.
    replace (d + a) with (d - a + 2 * a) by lia.
    rewrite (Z.even_add (d - a)), Z.even_mul.
    cbn [Z.even orb]. destruct (Z.even (d - a)); cbn [Bool.eqb]; lia.
Qed.

Lemma acs_interval_width_witness :
  acs_hi 128 24 - acs_lo 128 24 + 1
  = if Z.even 128 && Z.even 24
    then (if Z.even ((128 - 24) / 2) then 24 + 1 else 24 - 1)
    else 24.
Proof.
  apply (acs_interval_width 128 24); unfold float_exact; simpl; lia.
Defined.

(** **** Extra X6: the preconditions in closed form *)

Lemma acs_bounds_in_grid (dim acs : Z) :
  1 <= acs <= dim ->
  (1 <= acs_lo dim acs <= dim /\ 1 <= acs_hi dim acs <= dim) <-> acs < dim.
Proof.
  intros Hacs. unfold acs_lo, acs_hi, hsub, hadd, truediv2, half_of_int.
  simpl twice.
  destruct (round_spec (dim + 1 - acs)) as [Hlo Elo].
  destruct (round_spec (dim + 1 + acs - 2 * 1)) as [Hhi Ehi].
  split.
  - intros [Hl Hh].
    destruct (Z.eq_dec acs dim) as [->|]; [|lia]. exfalso.
    assert (dim + 1 - dim <> 2 * round (Half (dim + 1 - dim))) as Htie by lia.
    apply Elo, Z.even_spec in Htie as [k Hk]. lia.
  - intros Hlt. lia.
Qed.

(** X6. The preconditions of the generator hold exactly when both factors
    are at least 1 and the ACS size is positive and strictly smaller than
    the grid on both axes: with [acs < dim] the computed ACS bounds always
    lie in [1..dim], and with [acs = dim] the lower bound is [round(0.5) = 0]. *)
Theorem valid_input_closed_form (ky_dim kz_dim Ry Rz acs_y acs_z : Z) :
  valid_input (ky_dim, kz_dim) Ry Rz (acs_y, acs_z) <->
  (0 < acs_y < ky_dim /\ 0 < acs_z < kz_dim) /\ (1 <= Ry /\ 1 <= Rz).
Proof.
  unfold valid_input. split.
  - intros (Hdim & Hacs & Hle & HR & Hy & Hz).
    apply acs_bounds_in_grid in Hy; [|lia].
    apply acs_bounds_in_grid in Hz; [|lia]. lia.
  - intros ([Hy Hz] & HR).
    pose proof (proj2 (acs_bounds_in_grid ky_dim acs_y ltac:(lia)) ltac:(lia)).
    pose proof (proj2 (acs_bounds_in_grid kz_dim acs_z ltac:(lia)) ltac:(lia)).
    split_and!; lia.
Qed.

(** **** Extra X7: unit factors *)

Lemma filter_all {A : Type} (P : A -> Prop) `{!forall x, Decision (P x)}
    (l : list A) :
  (forall x, x ∈ l -> P x) -> filter P l = l.
Proof.
  induction l as [|x l IH]; intros Hall; [done|].
  rewrite filter_cons_True by (apply Hall; left).
  f_equal. apply IH. intros y Hy. apply Hall. by right.
Qed.

Lemma length_row_major (ky_dim kz_dim : Z) :
  0 <= ky_dim -> 0 <= kz_dim ->
  Z.of_nat (length (row_major ky_dim kz_dim)) = ky_dim * kz_dim.
Proof.
  intros Hky Hkz. unfold row_major.
  assert (forall l : list Z,
            length (l ≫= fun ky => pair ky <$> range 0 kz_dim)
            = (length l * Z.to_nat kz_dim)%nat) as Hbind.
  { induction l as [|x l IH]; [done|].
    rewrite bind_cons, length_app, IH, length_fmap. unfold range.
    rewrite length_seqZ. cbn [length]. lia. }
  rewrite Hbind. unfold range. rewrite length_seqZ. lia.
Qed.

Lemma full_mask_shaped (ky_dim kz_dim : Z) :
  shaped (Z.to_nat ky_dim) (Z.to_nat kz_dim) (full_mask ky_dim kz_dim).
Proof.
  unfold full_mask. split; [apply length_replicate|].
  apply Forall_replicate, length_replicate.
Qed.

Lemma cell_full_mask (ky_dim kz_dim : Z) (i j : nat) :
  (i < Z.to_nat ky_dim)%nat -> (j < Z.to_nat kz_dim)%nat ->
  cell (full_mask ky_dim kz_dim) i j = true.
Proof.
  intros Hi Hj. unfold cell, full_mask.
  rewrite lookup_replicate_2 by done. simpl.
  by rewrite lookup_replicate_2 by done.
Qed.

(** X7. With [Ry = Rz = 1] and an ACS region strictly inside the grid the
    mask is fully sampled: every cell is true, the sample list is the
    centred row-major index list of the whole grid, and [NE] is
    [ky_dim * kz_dim]. *)
Theorem grappa3D_pattern_unit_factors (ky_dim kz_dim : Z) (ACSdim : Z * Z) :
  valid_input (ky_dim, kz_dim) 1 1 ACSdim ->
  grappa3D_pattern (ky_dim, kz_dim) 1 1 ACSdim
  = Ok (full_mask ky_dim kz_dim,
        (fun p => (p.1 - ky_dim / 2, p.2 - kz_dim / 2))
          <$> row_major ky_dim kz_dim) /\
  count_nonzero (full_mask ky_dim kz_dim) = ky_dim * kz_dim.
Proof.
  intros Hvalid.
  destruct (valid_input_nonzero _ _ _ _ _ Hvalid) as (Hky & Hkz & _).
  destruct (grappa3D_pattern_valid_run _ _ _ _ _ Hvalid)
    as (mask & Hrun & Hmask & Hcell).
  assert (mask = full_mask ky_dim kz_dim) as ->.
  { apply (ndarray_ext _ _ _ _ Hmask (full_mask_shaped _ _)).
    intros i j Hi Hj. rewrite Hcell, cell_full_mask by done.
    unfold reference_cell, outside_on_lattice, on_lattice.
    rewrite !Z.mod_1_r. by destruct (in_acs _ _ _ _ _ _). }
  assert (filter (sampled (full_mask ky_dim kz_dim)) (row_major ky_dim kz_dim)
          = row_major ky_dim kz_dim) as Hall.
  { apply filter_all. intros [ky kz] [Hy Hz]%elem_of_row_major. simpl in *.
    apply (sampled_cell _ _ _ Hmask); [rewrite Z2Nat.id by done; lia..|].
    apply cell_full_mask; lia. }
  rewrite Hall in Hrun. split; [exact Hrun|].
  rewrite <- (Z2Nat.id ky_dim), <- (Z2Nat.id kz_dim) at 2 by done.
  rewrite <- (length_sampled_row_major _ _ _ Hmask).
  rewrite !Z2Nat.id, Hall by done. by apply length_row_major.
Qed.

Lemma grappa3D_pattern_unit_factors_witness :
  grappa3D_pattern (4, 5) 1 1 (2, 3)
  = Ok (full_mask 4 5,
        (fun p => (p.1 - 4 / 2, p.2 - 5 / 2)) <$> row_major 4 5) /\
  count_nonzero (full_mask 4 5) = 4 * 5.
Proof.
  apply (grappa3D_pattern_unit_factors 4 5 (2, 3)).
  unfold valid_input. vm_compute. intuition discriminate.
Defined.

(** **** Extra X8: an ACS region as large as an even grid *)

Lemma filter_unique {A : Type} (P : A -> Prop) `{!forall x, Decision (P x)}
    (l : list A) (p : A) :
  NoDup l -> p ∈ l -> P p -> (forall q, q ∈ l -> P q -> q = p) ->
  filter P l = [p].
Proof.
  induction 1 as [|x l Hx Hl IH]; intros Hin HP Hall.
  - by apply elem_of_nil in Hin.
  - apply elem_of_cons in Hin as [<-|Hin].
    + rewrite filter_cons_True by done. f_equal.
      destruct (filter P l) as [|y ys] eqn:E; [done|]. exfalso.
      assert (y ∈ filter P l) as [Hy Hyl]%list_elem_of_filter
        by (rewrite E; left).
      apply Hx. rewrite <- (Hall y); [done|by right|done].
    + rewrite filter_cons_False.
      * apply IH; [done..|]. intros q Hq. apply Hall. by right.
      * intros HPx. apply Hx. rewrite (Hall x); [done|by left|done].
Qed.

Lemma acs_bounds_full_even (dim : Z) :
  Z.even dim = true -> acs_lo dim dim = 0 /\ acs_hi dim dim = dim.
Proof.
  intros [k ->]%Z.even_spec.
  unfold acs_lo, acs_hi, hsub, hadd, truediv2, half_of_int. simpl twice.
  split.
  - by replace (2 * k + 1 - 2 * k) with 1 by lia.
  - replace (2 * k + 1 + 2 * k - 2 * 1) with (2 * (2 * k - 1) + 1) by lia.
    rewrite round_odd, Z.even_sub, Z.even_mul. cbn [Z.even orb Bool.eqb]. lia.
Qed.

Lemma last_cell_mask_shaped (ky_dim kz_dim : Z) :
  0 < ky_dim -> 0 < kz_dim ->
  shaped (Z.to_nat ky_dim) (Z.to_nat kz_dim) (last_cell_mask ky_dim kz_dim).
Proof.
  intros Hky Hkz. unfold last_cell_mask. split.
  - rewrite length_app, length_replicate. cbn [length]. lia.
  - apply Forall_app. split.
    + apply Forall_replicate, length_replicate.
    + repeat constructor. rewrite length_app, length_replicate.
      cbn [length]. lia.
Qed.

Lemma cell_last_cell_mask (ky_dim kz_dim : Z) (i j : nat) :
  (i < Z.to_nat ky_dim)%nat -> (j < Z.to_nat kz_dim)%nat ->
  cell (last_cell_mask ky_dim kz_dim) i j
  = (ky_dim - 1 <=? Z.of_nat i) && (kz_dim - 1 <=? Z.of_nat j).
Proof.
  intros Hi Hj. unfold cell, last_cell_mask.
  destruct (Z.leb_spec (ky_dim - 1) (Z.of_nat i)).
  - replace i with (Z.to_nat ky_dim - 1)%nat by lia.
    rewrite list_lookup_middle by (by rewrite length_replicate). simpl.
    destruct (Z.leb_spec (kz_dim - 1) (Z.of_nat j)).
    + replace j with (Z.to_nat kz_dim - 1)%nat by lia.
      by rewrite list_lookup_middle by (by rewrite length_replicate).
    + rewrite lookup_app_l by (rewrite length_replicate; lia).
      by rewrite lookup_replicate_2 by lia.
  - rewrite lookup_app_l by (rewrite length_replicate; lia).
    rewrite lookup_replicate_2 by lia. simpl.
    by rewrite lookup_replicate_2 by lia.
Qed.

Lemma in_slice_last (len : Z) (i : nat) :
  0 < len -> Z.of_nat i < len ->
  in_slice (0 - 1) len len i = (len - 1 <=? Z.of_nat i).
Proof.
  intros Hlen Hi. unfold in_slice, slice_adjust.
  change (0 - 1 <? 0) with true. cbv iota.
  destruct (Z.ltb_spec len 0); [lia|].
  rewrite Z.max_l, Z.min_id by lia.
  replace (0 - 1 + len) with (len - 1) by lia.
  destruct (Z.ltb_spec (Z.of_nat i) len); [|lia].
  by destruct (len - 1 <=? Z.of_nat i).
Qed.

Lemma in_acs_full (y2 z2 ky kz : Z) :
  1 <= ky <= y2 -> 1 <= kz <= z2 -> in_acs 0 y2 0 z2 ky kz = true.
Proof.
  intros Hky Hkz. unfold in_acs.
  rewrite !(proj2 (Z.leb_le _ _)); [done|lia..].
Qed.

(** X8. On a grid with two even dimensions, an ACS region of the size of the
    grid does not give a fully sampled mask: the lower ACS bounds are
    [round(0.5) = 0], the slice [mask[-1:ky_dim, -1:kz_dim]] wraps to the
    last cell alone and the lattice loop skips every cell, so for any
    factors the mask has the single true cell [(ky_dim, kz_dim)] and the
    sample list the single entry [(ky_dim / 2 - 1, kz_dim / 2 - 1)]. *)
Theorem grappa3D_pattern_full_acs_even (ky_dim kz_dim Ry Rz : Z) :
  0 < ky_dim -> 0 < kz_dim -> Z.even ky_dim = true -> Z.even kz_dim = true ->
  grappa3D_pattern (ky_dim, kz_dim) Ry Rz (ky_dim, kz_dim)
  = Ok (last_cell_mask ky_dim kz_dim, [(ky_dim / 2 - 1, kz_dim / 2 - 1)]).
Proof.
  intros Hky Hkz Eky Ekz.
  destruct (acs_bounds_full_even ky_dim Eky) as [Hy1 Hy2].
  destruct (acs_bounds_full_even kz_dim Ekz) as [Hz1 Hz2].
  (* the mask returned, whatever the factors *)
  assert (exists mask,
            grappa3D_pattern (ky_dim, kz_dim) Ry Rz (ky_dim, kz_dim)
            = Ok (mask, centred ky_dim kz_dim <$>
                          filter (sampled mask) (row_major ky_dim kz_dim)) /\
            shaped (Z.to_nat ky_dim) (Z.to_nat kz_dim) mask /\
            forall i j, (i < Z.to_nat ky_dim)%nat -> (j < Z.to_nat kz_dim)%nat ->
              cell mask i j
              = (ky_dim - 1 <=? Z.of_nat i) && (kz_dim - 1 <=? Z.of_nat j))
    as (mask & Hrun & Hmask & Hcell).
  { destruct (decide (Ry = 0 \/ Rz = 0)) as [Hzero|Hnz].
    - destruct (grappa3D_pattern_zero ky_dim kz_dim Ry Rz (ky_dim, kz_dim))
        as [Hshape Heq]; [lia..|done|].
      cbn [fst snd] in Hshape, Heq.
      rewrite Hy1, Hy2, Hz1, Hz2 in Hshape, Heq.
      eexists. split; [|split; [exact Hshape|]].
      + rewrite Heq.
        destruct (existsb _ _) eqn:Hex; [|reflexivity].
        apply existsb_grid in Hex as (ky & kz & Hy & Hz & Hdiv).
        unfold divides_by_zero in Hdiv. by rewrite in_acs_full in Hdiv.
      + intros i j Hi Hj. rewrite (cell_setslice _ _ _ _ _ _ _ true i j)
          by (done || apply zeros_shaped).
        rewrite cell_zeros, !Z2Nat.id, !in_slice_last by lia.
        by destruct (_ && _).
    - destruct (grappa3D_pattern_run ky_dim kz_dim Ry Rz (ky_dim, kz_dim))
        as (mask & Heq & Hshape & Hc); [lia|lia|tauto|tauto|].
      cbn [fst snd] in Heq, Hc. rewrite Hy1, Hy2, Hz1, Hz2 in Hc.
      exists mask. split; [done|]. split; [done|]. intros i j Hi Hj.
      rewrite Hc, !in_slice_last, in_acs_full by lia.
      cbn [negb andb]. by rewrite orb_false_r. }
  assert (mask = last_cell_mask ky_dim kz_dim) as ->.
  { apply (ndarray_ext _ _ _ _ Hmask (last_cell_mask_shaped _ _ Hky Hkz)).
    intros i j Hi Hj. by rewrite Hcell, cell_last_cell_mask. }
  rewrite Hrun. do 2 f_equal.
  rewrite (filter_unique _ _ (ky_dim - 1, kz_dim - 1)).
  - apply Z.even_spec in Eky as [a ->]. apply Z.even_spec in Ekz as [b ->].
    change ([centred (2 * a) (2 * b) (2 * a - 1, 2 * b - 1)]
            = [(2 * a / 2 - 1, 2 * b / 2 - 1)]).
    unfold centred. cbn [fst snd].
    do 2 f_equal; Z.div_mod_to_equations; lia.
  - apply lex_lt_NoDup, row_major_sorted.
  - apply elem_of_row_major. simpl. lia.
  - apply (sampled_cell _ _ _ Hmask); [rewrite Z2Nat.id; lia..|].
    rewrite Hcell by lia. rewrite !Z2Nat.id by lia.
    rewrite !(proj2 (Z.leb_le _ _)); [done|lia..].
  - intros [ky kz] [Hy Hz]%elem_of_row_major Hs. simpl in *.
    apply (sampled_cell _ _ _ Hmask) in Hs; [|rewrite Z2Nat.id; lia..].
    rewrite Hcell in Hs by lia. rewrite !Z2Nat.id in Hs by lia.
    apply andb_true_iff in Hs as [H1%Z.leb_le H2%Z.leb_le].
    f_equal; lia.
Qed.

Lemma grappa3D_pattern_full_acs_even_witness :
  grappa3D_pattern (8, 6) 2 3 (8, 6) = Ok (last_cell_mask 8 6, [(8 / 2 - 1, 6 / 2 - 1)]).
Proof.
  apply (grappa3D_pattern_full_acs_even 8 6 2 3); (lia || reflexivity).
Defined.

(** ** The summary *)

Section reduce.
Context (f : Z -> Z -> Z) (R : Z -> Z -> Prop).
Hypothesis f_choice : forall a b, f a b = a \/ f a b = b.
Hypothesis f_bound : forall a b, R (f a b) a /\ R (f a b) b.
Hypothesis R_refl : forall a, R a a.
Hypothesis R_trans : forall a b c, R a b -> R b c -> R a c.

Lemma foldl_reduce_spec (acc : Z * Z) (l : list (Z * Z)) :
  let r := foldl (fun acc x => (f acc.1 x.1, f acc.2 x.2)) acc l in
  (R r.1 acc.1 /\ R r.2 acc.2) /\
  (forall p, p ∈ l -> R r.1 p.1 /\ R r.2 p.2) /\
  (r.1 = acc.1 \/ exists p, p ∈ l /\ p.1 = r.1) /\
  (r.2 = acc.2 \/ exists p, p ∈ l /\ p.2 = r.2).
Proof.
  revert acc. induction l as [|x l IH]; intros acc; cbn zeta.
  - cbn [foldl]. split_and!; auto. intros p Hp. by apply elem_of_nil in Hp.
  - cbn [foldl].
    destruct (IH (f acc.1 x.1, f acc.2 x.2)) as ([B1 B2] & Hall & A1 & A2).
    cbn [fst snd] in *.
    destruct (f_bound acc.1 x.1) as [F1 F1'], (f_bound acc.2 x.2) as [F2 F2'].
    split_and!.
    + eauto.
    + eauto.
    + intros p [->|Hp]%elem_of_cons; [split; eauto|by apply Hall].
    + destruct A1 as [->|(p & Hp & <-)].
      * destruct (f_choice acc.1 x.1) as [->| ->]; [by left|].
        right. exists x. split; [left|done].
      * right. exists p. split; [by right|done].
    + destruct A2 as [->|(p & Hp & <-)].
      * destruct (f_choice acc.2 x.2) as [->| ->]; [by left|].
        right. exists x. split; [left|done].
      * right. exists p. split; [by right|done].
Qed.

(** A reduction along axis 0 bounds every row and is attained on each
    component. *)
Lemma reduce_axis0_spec (samples : list (Z * Z)) (r : Z * Z) :
  reduce_axis0 f samples = Ok r ->
  (forall p, p ∈ samples -> R r.1 p.1 /\ R r.2 p.2) /\
  (exists p, p ∈ samples /\ p.1 = r.1) /\
  (exists p, p ∈ samples /\ p.2 = r.2).
Proof.
  destruct samples as [|s rest]; [done|]. intros [= <-].
  destruct (foldl_reduce_spec s rest) as ([B1 B2] & Hall & A1 & A2).
  cbn zeta in *. split_and!.
  - intros p [->|Hp]%elem_of_cons; [done|by apply Hall].
  - destruct A1 as [->|(p & Hp & <-)].
    + exists s. split; [left|done].
    + exists p. split; [by right|done].
  - destruct A2 as [->|(p & Hp & <-)].
    + exists s. split; [left|done].
    + exists p. split; [by right|done].
Qed.
End reduce.

Lemma summarise_Ok_inv (t : count_type) (mask : ndarray)
    (samples : list (Z * Z)) (s : summary) :
  summarise t mask samples = Ok s ->
  size_over_count t (size mask) (count_nonzero mask) = Ok (AF s) /\
  NE s = Z.of_nat (length samples) /\
  reduce_axis0 Z.min samples = Ok (k_min s) /\
  reduce_axis0 Z.max samples = Ok (k_max s).
Proof.
  unfold summarise.
  destruct (size_over_count t (size mask) (count_nonzero mask)) as [af|];
    [|done].
  rewrite bind_Ok_l.
  destruct (reduce_axis0 Z.min samples) as [mins|]; [|done].
  rewrite bind_Ok_l.
  destruct (reduce_axis0 Z.max samples) as [maxs|]; [|done].
  rewrite bind_Ok_l. by intros [= <-].
Qed.

(** **** Extra X9: the extents of the summary *)

(** X9. When the summary is computed, [NE] is the number of samples, every
    sample lies between [(ky_min, kz_min)] and [(ky_max, kz_max)] on both
    axes, and each of the four extents is the coordinate of some sample. *)
Theorem summarise_extents
    (t : count_type) (mask : ndarray) (samples : list (Z * Z)) (s : summary) :
  summarise t mask samples = Ok s ->
  NE s = Z.of_nat (length samples) /\
  (forall p, p ∈ samples ->
     (k_min s).1 <= p.1 <= (k_max s).1 /\ (k_min s).2 <= p.2 <= (k_max s).2) /\
  (exists p, p ∈ samples /\ p.1 = (k_min s).1) /\
  (exists p, p ∈ samples /\ p.2 = (k_min s).2) /\
  (exists p, p ∈ samples /\ p.1 = (k_max s).1) /\
  (exists p, p ∈ samples /\ p.2 = (k_max s).2).
Proof.
  intros (_ & HNE & Hmin & Hmax)%summarise_Ok_inv.
  apply (reduce_axis0_spec Z.min Z.le) in Hmin as (Hlo & Amin1 & Amin2);
    [|lia..].
  apply (reduce_axis0_spec Z.max Z.ge) in Hmax as (Hhi & Amax1 & Amax2);
    [|lia..].
  split_and!; [done| |done..].
  intros p Hp. destruct (Hlo p Hp), (Hhi p Hp). lia.
Qed.

Lemma summarise_extents_witness :
  NE (Summary (Finite (4 # 3)) 3 (-1, -2) (2, 5))
  = Z.of_nat (length [(0, 5); (2, -2); (-1, 0)]) /\
  (forall p, p ∈ [(0, 5); (2, -2); (-1, 0)] ->
     (k_min (Summary (Finite (4 # 3)) 3 (-1, -2) (2, 5))).1 <= p.1
       <= (k_max (Summary (Finite (4 # 3)) 3 (-1, -2) (2, 5))).1 /\
     (k_min (Summary (Finite (4 # 3)) 3 (-1, -2) (2, 5))).2 <= p.2
       <= (k_max (Summary (Finite (4 # 3)) 3 (-1, -2) (2, 5))).2) /\
  (exists p, p ∈ [(0, 5); (2, -2); (-1, 0)]
             /\ p.1 = (k_min (Summary (Finite (4 # 3)) 3 (-1, -2) (2, 5))).1) /\
  (exists p, p ∈ [(0, 5); (2, -2); (-1, 0)]
             /\ p.2 = (k_min (Summary (Finite (4 # 3)) 3 (-1, -2) (2, 5))).2) /\
  (exists p, p ∈ [(0, 5); (2, -2); (-1, 0)]
             /\ p.1 = (k_max (Summary (Finite (4 # 3)) 3 (-1, -2) (2, 5))).1) /\
  (exists p, p ∈ [(0, 5); (2, -2); (-1, 0)]
             /\ p.2 = (k_max (Summary (Finite (4 # 3)) 3 (-1, -2) (2, 5))).2).
Proof.
  apply (summarise_extents NumpyInt [[true; false]; [true; true]]
           [(0, 5); (2, -2); (-1, 0)]).
  vm_compute. reflexivity.
Defined.

(** ** The script as a whole *)

Lemma export_lut_text (ne : Z) (samples : list (Z * Z)) :
  exists low16 high16,
    split32to16 ne = Ok (low16, high16) /\
    export_lut ne samples = Ok (unlines (lut_lines low16 high16 samples)) /\
    line_count (unlines (lut_lines low16 high16 samples))
    = (2 + 2 * length samples)%nat.
Proof.
  destruct (split32to16_decode ne) as (low16 & high16 & Hsplit & _).
  exists low16, high16. split; [done|]. split.
  - unfold export_lut. rewrite Hsplit, bind_Ok_l, export_samples_spec.
    unfold write, lut_lines. rewrite !unlines_cons.
    by rewrite !append_assoc.
  - rewrite line_count_unlines, length_lut_lines; [done|].
    unfold lut_lines. repeat (constructor; [apply line_count_str|]).
    apply Forall_forall.
    intros l (s & [->| ->%list_elem_of_singleton]%elem_of_cons & _)
             %list_elem_of_bind;
      apply line_count_str.
Qed.

(** **** Extra X10: a mask without a true cell *)

(** X10. When the generator returns a mask without any true cell (which
    happens on inputs off the preconditions, such as an empty grid), the
    sample list is empty and the script stops before any file is written.
    Where [np.count_nonzero] returns a Python [int] (before NumPy 2.3) it
    stops at the acceleration factor with [ZeroDivisionError]; where it
    returns a NumPy integer (from NumPy 2.3) the factor is [inf] or [nan]
    and the script stops at [samples.min] with [ValueError]. *)
Theorem run_all_false
    (size_of_kspace acs_size : Z * Z) (Ry Rz : Z)
    (mask : ndarray) (samples : list (Z * Z)) :
  grappa3D_pattern size_of_kspace Ry Rz acs_size = Ok (mask, samples) ->
  count_nonzero mask = 0 ->
  samples = [] /\
  run PythonInt size_of_kspace acs_size Ry Rz = Raise ZeroDivisionError /\
  size_over_count NumpyInt (size mask) (count_nonzero mask)
  = Ok (if size mask =? 0 then NaN else PosInf) /\
  run NumpyInt size_of_kspace acs_size Ry Rz = Raise ValueError.
Proof.
  destruct size_of_kspace as [ky_dim kz_dim]. intros Hrun Hcount.
  assert (samples = []) as ->.
  { destruct (grappa3D_pattern_Ok_inv _ _ _ _ _ _ _ Hrun)
      as ([Hky Hkz] & Hmask & ->).
    pose proof (length_sampled_row_major _ _ mask Hmask) as Hlen.
    rewrite !Z2Nat.id in Hlen by done.
    destruct (filter _ _); [done|]. simpl in Hlen. lia. }
  assert (size_over_count NumpyInt (size mask) (count_nonzero mask)
          = Ok (if size mask =? 0 then NaN else PosInf)) as Hnp.
  { unfold size_over_count, np_truediv. rewrite Hcount.
    change (0 =? 0) with true. cbv iota.
    destruct (Z.eqb_spec (size mask) 0); [done|].
    destruct (Z.ltb_spec 0 (size mask)); [done|].
    unfold size in *. lia. }
  split_and!; [done| |done|].
  - unfold run. rewrite Hrun, bind_Ok_l. cbv beta iota.
    unfold summarise, size_over_count, py_truediv. by rewrite Hcount.
  - unfold run. rewrite Hrun, bind_Ok_l. cbv beta iota.
    unfold summarise. by rewrite Hnp, bind_Ok_l.
Qed.

Lemma run_all_false_witness :
  ([] : list (Z * Z)) = [] /\
  run PythonInt (1, 1) (1, 1) 2 2 = Raise ZeroDivisionError /\
  size_over_count NumpyInt (size [[false]]) (count_nonzero [[false]])
  = Ok (if size [[false]] =? 0 then NaN else PosInf) /\
  run NumpyInt (1, 1) (1, 1) 2 2 = Raise ValueError.
Proof.
  apply (run_all_false (1, 1) (1, 1) 2 2 [[false]] []); reflexivity.
Defined.

(** **** Extra X11: the script on valid input *)

(** X11. On valid input the script runs to its end, whichever integer
    type [np.count_nonzero] returns: the summary has
    [NE = count_nonzero(mask)], at least 1, and a finite acceleration factor
    equal to [ky_dim * kz_dim / NE], at least 1, and the text written is the
    LUT of the samples under the split of [NE], with [2 + 2 * NE] lines. *)
Theorem run_valid (ky_dim kz_dim Ry Rz : Z) (acs_size : Z * Z) :
  valid_input (ky_dim, kz_dim) Ry Rz acs_size ->
  exists mask samples s text low16 high16,
    grappa3D_pattern (ky_dim, kz_dim) Ry Rz acs_size = Ok (mask, samples) /\
    (forall t, run t (ky_dim, kz_dim) acs_size Ry Rz = Ok (s, text)) /\
    (NE s = count_nonzero mask /\ 1 <= NE s <= ky_dim * kz_dim) /\
    (exists q, AF s = Finite q /\
       (q == inject_Z (ky_dim * kz_dim) / inject_Z (NE s) /\ 1 <= q)%Q) /\
    split32to16 (NE s) = Ok (low16, high16) /\
    text = unlines (lut_lines low16 high16 samples) /\
    Z.of_nat (line_count text) = 2 + 2 * NE s.
Proof.
  intros Hvalid.
  destruct (grappa3D_pattern_valid_nonempty _ _ _ _ _ Hvalid)
    as (mask & samples & Hrun & Hcount & Hlen).
  destruct (grappa3D_pattern_Ok_inv _ _ _ _ _ _ _ Hrun)
    as ([Hky Hkz] & Hmask & Hscan).
  pose proof (size_shaped _ _ mask Hmask) as Hsize.
  rewrite !Z2Nat.id in Hsize by done.
  pose proof (length_sampled_row_major _ _ mask Hmask) as Hne.
  rewrite !Z2Nat.id, <- (length_fmap (centred ky_dim kz_dim)), <- Hscan in Hne
    by done.
  pose proof (count_nonzero_le_size mask) as Hle.
  destruct (summarise_succeeds PythonInt mask samples Hcount Hlen) as [s Hs].
  destruct (summarise_Ok_inv _ _ _ _ Hs) as (HAF & HNE & Hmin & Hmax).
  rewrite size_over_count_nonzero in HAF by lia. injection HAF as HAF.
  destruct (export_lut_text (NE s) samples)
    as (low16 & high16 & Hsplit & Hexport & Hlines).
  exists mask, samples, s, (unlines (lut_lines low16 high16 samples)),
         low16, high16.
  split_and!; try done.
  - intros t. unfold run. rewrite Hrun, bind_Ok_l. cbv beta iota.
    assert (summarise t mask samples = Ok s) as ->.
    { unfold summarise. rewrite size_over_count_nonzero, bind_Ok_l by lia.
      rewrite Hmin, bind_Ok_l, Hmax, bind_Ok_l. f_equal.
      destruct s. simpl in *. by subst. }
    by rewrite bind_Ok_l, Hexport, bind_Ok_l.
  - lia.
  - lia.
  - lia.
  - eexists. split; [symmetry; exact HAF|]. split.
    + rewrite Hsize, HNE, Hne. reflexivity.
    + apply Qle_shift_div_l.
      * change 0%Q with (inject_Z 0). rewrite <- Zlt_Qlt. lia.
      * rewrite Qmult_1_l, <- Zle_Qle. lia.
  - rewrite Hlines, HNE. lia.
Qed.

Lemma run_valid_witness :
  exists mask samples s text low16 high16,
    grappa3D_pattern (8, 8) 2 2 (4, 4) = Ok (mask, samples) /\
    (forall t, run t (8, 8) (4, 4) 2 2 = Ok (s, text)) /\
    (NE s = count_nonzero mask /\ 1 <= NE s <= 8 * 8) /\
    (exists q, AF s = Finite q /\
       (q == inject_Z (8 * 8) / inject_Z (NE s) /\ 1 <= q)%Q) /\
    split32to16 (NE s) = Ok (low16, high16) /\
    text = unlines (lut_lines low16 high16 samples) /\
    Z.of_nat (line_count text) = 2 + 2 * NE s.
Proof.
  apply (run_valid 8 8 2 2 (4, 4)).
  unfold valid_input. vm_compute. intuition discriminate.
Defined.

(** ** The splitter, further *)

(** **** Extra X12: which counts share a split *)

(** X12. Two counts have the same split exactly when they are congruent
    modulo 2^32: the pair keeps the low 32 bits of the count and nothing
    else. *)
Theorem split32to16_eq_iff (a b : Z) :
  split32to16 a = split32to16 b <-> a mod 2 ^ 32 = b mod 2 ^ 32.
Proof.
  split.
  - intros Heq.
    destruct (split32to16_decode a) as (la & ha & Ha & _ & _ & Hda).
    destruct (split32to16_decode b) as (lb & hb & Hb & _ & _ & Hdb).
    rewrite Ha, Hb in Heq. injection Heq as -> ->. by rewrite <- Hda, <- Hdb.
  - intros Hmod. rewrite !split32to16_spec.
    change (2 ^ 32) with 4294967296 in Hmod.
    change (2 ^ 15) with 32768. change (2 ^ 16) with 65536.
    assert (a mod 65536 = b mod 65536) as -> by (Z.div_mod_to_equations; lia).
    assert ((a / 65536) mod 65536 = (b / 65536) mod 65536) as ->
      by (Z.div_mod_to_equations; lia).
    done.
Qed.

(** **** Extra X13: the signed low half *)

(** X13. For a count in [0 .. 2^32 - 1] the high half is [count // 2^16],
    the low half is negative exactly when bit 15 of the count is set, and
    adding the halves as they are written gives the count less 2^16 in that
    case and the count otherwise; a count below 2^15 is split into itself
    and 0. *)
Theorem split32to16_signed_low (count : Z) :
  0 <= count <= 2 ^ 32 - 1 ->
  exists low16 high16,
    split32to16 count = Ok (low16, high16) /\
    high16 = count / 2 ^ 16 /\
    (low16 < 0 <-> 2 ^ 15 <= count mod 2 ^ 16) /\
    high16 * 2 ^ 16 + low16 = (if low16 <? 0 then count - 2 ^ 16 else count) /\
    (count < 2 ^ 15 -> low16 = count /\ high16 = 0).
Proof.
  intros Hcount. eexists _, _. split; [apply split32to16_spec|].
  change (2 ^ 32) with 4294967296 in Hcount.
  change (2 ^ 15) with 32768. change (2 ^ 16) with 65536.
  destruct (Z.leb_spec 32768 (count mod 65536)) as [Hbit|Hbit].
  - destruct (Z.ltb_spec (count mod 65536 - 65536) 0) as [_|Hge];
      [|Z.div_mod_to_equations; lia].
    split_and!; Z.div_mod_to_equations; lia.
  - destruct (Z.ltb_spec (count mod 65536) 0) as [Hlt|_];
      [Z.div_mod_to_equations; lia|].
    split_and!; Z.div_mod_to_equations; lia.
Qed.

Lemma split32to16_signed_low_witness :
  exists low16 high16,
    split32to16 40000 = Ok (low16, high16) /\
    high16 = 40000 / 2 ^ 16 /\
    (low16 < 0 <-> 2 ^ 15 <= 40000 mod 2 ^ 16) /\
    high16 * 2 ^ 16 + low16 = (if low16 <? 0 then 40000 - 2 ^ 16 else 40000) /\
    (40000 < 2 ^ 15 -> low16 = 40000 /\ high16 = 0).
Proof. apply (split32to16_signed_low 40000). lia. Defined.

(** ** The LUT file determines the samples *)

Lemma str_inj (n m : Z) : str n = str m -> n = m.
Proof.
  assert (forall z, NilZero.int_of_string (str z) = Some (Z.to_int z)) as Hparse.
  { intros z. unfold str. apply NilZero.isi; destruct z; simpl; try done;
      intros [= H]; by apply Unsigned.to_uint_nonnil in H. }
  intros Heq. apply to_int_inj.
  pose proof (Hparse n) as Hn. rewrite Heq, Hparse in Hn. congruence.
Qed.

(** Two texts that start with a line and a newline agree on the line and on
    the rest. *)
Lemma line_split_inj (l1 l2 r1 r2 : string) :
  line_count l1 = 0%nat -> line_count l2 = 0%nat ->
  l1 +:+ newline +:+ r1 = l2 +:+ newline +:+ r2 -> l1 = l2 /\ r1 = r2.
Proof.
  revert l2. induction l1 as [|c l1 IH]; intros [|d l2] H1 H2 Heq.
  - by injection Heq.
  - exfalso. rewrite append_cons in Heq. injection Heq as <- _.
    cbn [line_count] in H2. by rewrite Ascii.eqb_refl in H2.
  - exfalso. rewrite append_cons in Heq. injection Heq as -> _.
    cbn [line_count] in H1. by rewrite Ascii.eqb_refl in H1.
  - rewrite !append_cons in Heq. injection Heq as -> Heq.
    cbn [line_count] in H1, H2.
    destruct (IH l2) as [-> ->]; [lia|lia|done|done].
Qed.

Lemma unlines_inj (ls1 ls2 : list string) :
  Forall (fun l => line_count l = 0%nat) ls1 ->
  Forall (fun l => line_count l = 0%nat) ls2 ->
  unlines ls1 = unlines ls2 -> ls1 = ls2.
Proof.
  intros H1. revert ls2.
  induction H1 as [|l1 ls1 Hl1 _ IH]; intros ls2 H2 Heq.
  - destruct H2 as [|l2 ls2 Hl2 _]; [done|].
    rewrite unlines_cons in Heq. destruct l2; discriminate Heq.
  - destruct H2 as [|l2 ls2 Hl2 H2].
    + rewrite unlines_cons in Heq. destruct l1; discriminate Heq.
    + rewrite !unlines_cons in Heq.
      apply line_split_inj in Heq as [-> Heq]; [|done..].
      f_equal. by apply IH.
Qed.

Lemma lut_lines_newline_free (l16 h16 : Z) (samples : list (Z * Z)) :
  Forall (fun l => line_count l = 0%nat) (lut_lines l16 h16 samples).
Proof.
  unfold lut_lines. repeat (constructor; [apply line_count_str|]).
  apply Forall_forall.
  intros l (s & [->| ->%list_elem_of_singleton]%elem_of_cons & _)
           %list_elem_of_bind;
    apply line_count_str.
Qed.

Lemma sample_lines_inj (samples1 samples2 : list (Z * Z)) :
  samples1 ≫= (fun sample => [str sample.1; str sample.2])
  = samples2 ≫= (fun sample => [str sample.1; str sample.2]) ->
  samples1 = samples2.
Proof.
  revert samples2.
  induction samples1 as [|[a b] s1 IH]; intros [|[c d] s2] Heq;
    [done|done|done|].
  rewrite !bind_cons in Heq. cbn [fst snd app] in Heq.
  injection Heq as ->%str_inj ->%str_inj Heq.
  f_equal. by apply IH.
Qed.

(** **** Extra X14: the export loses nothing *)

(** X14. The text of the LUT file determines what was written: two exports
    with the same text have the same sample list, entry by entry, and counts
    with the same split (congruent modulo 2^32). *)
Theorem export_lut_injective
    (ne1 ne2 : Z) (samples1 samples2 : list (Z * Z)) (text : string) :
  export_lut ne1 samples1 = Ok text ->
  export_lut ne2 samples2 = Ok text ->
  samples1 = samples2 /\ ne1 mod 2 ^ 32 = ne2 mod 2 ^ 32.
Proof.
  intros H1 H2.
  destruct (export_lut_text ne1 samples1) as (l1 & h1 & Hs1 & He1 & _).
  destruct (export_lut_text ne2 samples2) as (l2 & h2 & Hs2 & He2 & _).
  rewrite He1 in H1. rewrite He2 in H2.
  assert (unlines (lut_lines l1 h1 samples1)
          = unlines (lut_lines l2 h2 samples2)) as Heq by congruence.
  apply unlines_inj in Heq; [|apply lut_lines_newline_free..].
  unfold lut_lines in Heq.
  injection Heq as ->%str_inj ->%str_inj Hrest.
  split; [by apply sample_lines_inj|].
  destruct (split32to16_decode ne1) as (l1' & h1' & Hs1' & _ & _ & Hd1).
  destruct (split32to16_decode ne2) as (l2' & h2' & Hs2' & _ & _ & Hd2).
  rewrite Hs1 in Hs1'. rewrite Hs2 in Hs2'.
  injection Hs1' as <- <-. injection Hs2' as <- <-. by rewrite <- Hd1, <- Hd2.
Qed.

Lemma export_lut_injective_witness :
  [(-1, 2); (0, -3)] = [(-1, 2); (0, -3)] /\ 2 mod 2 ^ 32 = 4294967298 mod 2 ^ 32.
Proof.
  apply (export_lut_injective 2 4294967298 [(-1, 2); (0, -3)] [(-1, 2); (0, -3)]
           (unlines (lut_lines 2 0 [(-1, 2); (0, -3)])));
    vm_compute; reflexivity.
Defined.

(** ** An empty grid *)

(** **** Extra X15: a grid dimension of zero *)

(** X15. On a grid with a dimension of zero (and none negative; sizes that
    NumPy takes and on which the floats of the bounds are exact) the
    generator returns, for any factors, the empty mask of that shape and no
    sample: no cell is visited, so not even a zero factor raises.  The
    script then stops before any file is written: with [ZeroDivisionError]
    at the acceleration factor where [np.count_nonzero] returns a Python
    [int], and with [ValueError] at [samples.min], the factor being [nan],
    where it returns a NumPy integer. *)
Theorem grappa3D_pattern_empty_grid (ky_dim kz_dim Ry Rz : Z) (ACSdim : Z * Z) :
  int32 ky_dim -> int32 kz_dim ->
  float_exact ACSdim.1 -> float_exact ACSdim.2 ->
  0 <= ky_dim -> 0 <= kz_dim -> ky_dim = 0 \/ kz_dim = 0 ->
  grappa3D_pattern (ky_dim, kz_dim) Ry Rz ACSdim
  = Ok (replicate (Z.to_nat ky_dim) (replicate (Z.to_nat kz_dim) false), []) /\
  run PythonInt (ky_dim, kz_dim) ACSdim Ry Rz = Raise ZeroDivisionError /\
  size_over_count NumpyInt (ky_dim * kz_dim) 0 = Ok NaN /\
  run NumpyInt (ky_dim, kz_dim) ACSdim Ry Rz = Raise ValueError.
Proof.
  intros _ _ _ _ Hky Hkz Hempty.
  assert (exists mask,
            grappa3D_pattern (ky_dim, kz_dim) Ry Rz ACSdim
            = Ok (mask, centred ky_dim kz_dim <$>
                          filter (sampled mask) (row_major ky_dim kz_dim)) /\
            shaped (Z.to_nat ky_dim) (Z.to_nat kz_dim) mask)
    as (mask & Hrun & Hmask).
  { destruct (decide (Ry = 0 \/ Rz = 0)) as [Hzero|Hnz].
    - destruct (grappa3D_pattern_zero ky_dim kz_dim Ry Rz ACSdim Hky Hkz Hzero)
        as [Hshape Heq].
      eexists. split; [|exact Hshape]. rewrite Heq.
      destruct (existsb _ _) eqn:Hex; [|reflexivity].
      apply existsb_grid in Hex as (ky & kz & Hy & Hz & _). lia.
    - destruct (grappa3D_pattern_run ky_dim kz_dim Ry Rz ACSdim Hky Hkz)
        as (mask & Heq & Hshape & _); [tauto..|].
      by exists mask. }
  assert (mask = replicate (Z.to_nat ky_dim) (replicate (Z.to_nat kz_dim) false))
    as ->.
  { apply (ndarray_ext _ _ _ _ Hmask); [apply zeros_shaped|].
    intros i j Hi Hj. lia. }
  assert (row_major ky_dim kz_dim = []) as Hnil.
  { pose proof (length_row_major ky_dim kz_dim Hky Hkz) as Hlen.
    destruct (row_major ky_dim kz_dim); [done|]. simpl in Hlen. nia. }
  rewrite Hnil in Hrun.
  assert (count_nonzero
            (replicate (Z.to_nat ky_dim) (replicate (Z.to_nat kz_dim) false))
          = 0) as Hcount.
  { rewrite <- (Z2Nat.id ky_dim), <- (Z2Nat.id kz_dim) in Hnil by done.
    by rewrite <- (length_sampled_row_major _ _ _ Hmask), Hnil. }
  assert (size (replicate (Z.to_nat ky_dim) (replicate (Z.to_nat kz_dim) false))
          = 0) as Hsize.
  { rewrite (size_shaped _ _ _ Hmask). lia. }
  assert (ky_dim * kz_dim = 0) as -> by lia.
  split_and!; [exact Hrun| |done|].
  - unfold run. rewrite Hrun, bind_Ok_l. cbv beta iota.
    unfold summarise, size_over_count, py_truediv. by rewrite Hcount.
  - unfold run. rewrite Hrun, bind_Ok_l. cbv beta iota.
    unfold summarise, size_over_count, np_truediv.
    by rewrite Hcount, Hsize.
Qed.

Lemma grappa3D_pattern_empty_grid_witness :
  grappa3D_pattern (3, 0) 0 2 (1, 1)
  = Ok (replicate (Z.to_nat 3) (replicate (Z.to_nat 0) false), []) /\
  run PythonInt (3, 0) (1, 1) 0 2 = Raise ZeroDivisionError /\
  size_over_count NumpyInt (3 * 0) 0 = Ok NaN /\
  run NumpyInt (3, 0) (1, 1) 0 2 = Raise ValueError.
Proof.
  apply (grappa3D_pattern_empty_grid 3 0 0 2 (1, 1));
    unfold int32, float_exact; simpl; lia.
Defined.
